(** * A shallow embedding of src/js/main.js (the Veloura homepage script)

    The module [App] of main.js is a closure over a small mutable [state]
    record and a set of initializers that wire DOM elements, timers and
    [localStorage] together.  We embed the parts the specification talks
    about:
    - [Json]      : the JSON values and [JSON.parse] that [loadStorage] relies on;
    - [Badges]    : [loadStorage] and [syncBadges];
    - [Theme]     : [initTheme] and its click handler;
    - [Countdown] : the [tick] closure of [initCountdown];
    - [Carousel]  : [goToSlide], [next] and the autoplay timer;
    - [Tabs]      : the click handler of [initTabs];
    - [Page]      : the whole page as a state machine driven by browser events.

    JavaScript strings (DOMStrings, and so [localStorage] values) are lists
    of UTF-16 code units, written [jstr].  JavaScript numbers are modelled
    by exact rationals [Q] where the program does arithmetic on values read
    from JSON, and by [Z] where it works on whole milliseconds or indices;
    NaN is written out where the code can produce it.  The program's
    numbers are IEEE-754 doubles, which round: the exact values are the
    program's only where no rounding happens, which [round_double] makes
    precise for integers (every integer of magnitude at most 2^53 is a
    double, and a sum of two such doubles is exact when it is one too).
    The theorems on sums and indices state the range in which they hold. *)

From Stdlib Require Import ZArith QArith Qround List Lia.
From stdpp Require Import base gmap strings.
Import ListNotations.

Open Scope Z_scope.
#[local] Set Warnings "-register-all".

(** A DOMString: a sequence of UTF-16 code units. *)
Abbreviation jstr := (list Z).

(** The code units of an ASCII string literal, used to write concrete inputs. *)
Fixpoint s2j (s : string) : jstr :=
  match s with
  | EmptyString => []
  | String c r => Z.of_nat (Ascii.nat_of_ascii c) :: s2j r
  end.

(** JSON text for concrete inputs: an ASCII literal in which each
    apostrophe stands for a double quote (code unit 34). *)
Fixpoint jtext (s : string) : jstr :=
  match s with
  | EmptyString => []
  | String c r =>
      let u := Z.of_nat (Ascii.nat_of_ascii c) in (if u =? 39 then 34 else u) :: jtext r
  end.

(** The double nearest to the integer [x] (53-bit significand, ties to
    even), for results of magnitude below 2^1024 (above, the sum is
    Infinity): the value of a JavaScript number computed as [x]. *)
Definition round_double (x : Z) : Z :=
  let a := Z.abs x in
  if a <=? 2 ^ 53 then x
  else
    let sh := Z.log2 a - 52 in
    let q := a / 2 ^ sh in
    let r := a mod 2 ^ sh in
    let half := 2 ^ (sh - 1) in
    let q' := if r <? half then q
              else if half <? r then q + 1
              else if Z.even q then q else q + 1 in
    Z.sgn x * (q' * 2 ^ sh).

Module Json.

(** The values [JSON.parse] produces.  Object members keep the source
    order, duplicates included; a property read takes the last one, as
    [JSON.parse] lets a later member overwrite an earlier one. *)
Inductive jv : Type :=
  | JNull
  | JBool (b : bool)
  | JNum (q : Q)
  | JStr (s : jstr)
  | JArr (l : list jv)
  | JObj (fields : list (jstr * jv)).

(** Property read on an object literal: the last member with that key. *)
Fixpoint lookup_last (k : jstr) (fs : list (jstr * jv)) : option jv :=
  match fs with
  | [] => None
  | (k', v) :: r =>
      match lookup_last k r with
      | Some w => Some w
      | None => if decide (k = k') then Some v else None
      end
  end.

(** ** JSON.parse (ECMA-262 JSON grammar) over code units *)

Definition is_ws (c : Z) : bool :=
  (c =? 32) || (c =? 9) || (c =? 10) || (c =? 13).

Fixpoint skip_ws (s : jstr) : jstr :=
  match s with
  | c :: r => if is_ws c then skip_ws r else s
  | [] => []
  end.

Definition is_digit (c : Z) : bool := (48 <=? c) && (c <=? 57).

(** A run of decimal digits: its value and its length. *)
Fixpoint digits (s : jstr) (acc : Z) (n : nat) : Z * nat * jstr :=
  match s with
  | c :: r => if is_digit c then digits r (acc * 10 + (c - 48)) (S n) else (acc, n, s)
  | [] => (acc, n, [])
  end.

Definition hex_val (c : Z) : option Z :=
  if is_digit c then Some (c - 48)
  else if (65 <=? c) && (c <=? 70) then Some (c - 55)
  else if (97 <=? c) && (c <=? 102) then Some (c - 87)
  else None.

(** The number grammar: [-? (0 | [1-9][0-9]* ) (. [0-9]+)? ([eE] [+-]? [0-9]+)?]. *)
Definition parse_number (s : jstr) : option (Q * jstr) :=
  let '(neg, s1) := match s with 45 :: r => (true, r) | _ => (false, s) end in
  let int_part :=
    match s1 with
    | 48 :: r => Some (0, r)
    | c :: _ => if is_digit c then let '(v, _, r) := digits s1 0 O in Some (v, r) else None
    | [] => None
    end in
  match int_part with
  | None => None
  | Some (iv, s2) =>
      let frac :=
        match s2 with
        | 46 :: r => let '(v, k, r') := digits r 0 O in
                     if (k =? O)%nat then None else Some (v, k, r')
        | _ => Some (0, O, s2)
        end in
      match frac with
      | None => None
      | Some (fv, k, s3) =>
          let expo :=
            match s3 with
            | e :: r =>
                if (e =? 101) || (e =? 69) then
                  let '(sg, r1) := match r with
                                   | 43 :: r' => (1, r') | 45 :: r' => (-1, r') | _ => (1, r) end in
                  let '(v, n, r2) := digits r1 0 O in
                  if (n =? O)%nat then None else Some (sg * v, r2)
                else Some (0, s3)
            | [] => Some (0, [])
            end in
          match expo with
          | None => None
          | Some (ev, s4) =>
              let mag := (inject_Z iv + inject_Z fv / inject_Z (10 ^ Z.of_nat k))%Q in
              let v := (mag * Qpower (inject_Z 10) ev)%Q in
              Some ((if neg then - v else v)%Q, s4)
          end
      end
  end.

(** String body after the opening quote, up to and including the closing one. *)
Fixpoint parse_chars (fuel : nat) (s : jstr) (acc : jstr) : option (jstr * jstr) :=
  match fuel with
  | O => None
  | S f =>
      match s with
      | [] => None
      | 34 :: r => Some (rev acc, r)
      | 92 :: e :: r =>
          if e =? 117 then
            match r with
            | a :: b :: c :: d :: r' =>
                match hex_val a, hex_val b, hex_val c, hex_val d with
                | Some a', Some b', Some c', Some d' =>
                    parse_chars f r' ((((a' * 16 + b') * 16 + c') * 16 + d') :: acc)
                | _, _, _, _ => None
                end
            | _ => None
            end
          else
            let esc :=
              if e =? 34 then Some 34 else if e =? 92 then Some 92
              else if e =? 47 then Some 47 else if e =? 98 then Some 8
              else if e =? 102 then Some 12 else if e =? 110 then Some 10
              else if e =? 114 then Some 13 else if e =? 116 then Some 9
              else None in
            match esc with
            | Some u => parse_chars f r (u :: acc)
            | None => None
            end
      | c :: r => if c <? 32 then None else if c =? 92 then None
                  else parse_chars f r (c :: acc)
      end
  end.

(** Literal keyword [w] at the head of [s]. *)
Fixpoint strip_prefix (w s : jstr) : option jstr :=
  match w, s with
  | [], _ => Some s
  | a :: w', b :: s' => if a =? b then strip_prefix w' s' else None
  | _ :: _, [] => None
  end.

Fixpoint parse_value (fuel : nat) (s : jstr) {struct fuel} : option (jv * jstr) :=
  match fuel with
  | O => None
  | S f =>
      match skip_ws s with
      | [] => None
      | c :: r =>
          if c =? 123 then parse_obj_first f (skip_ws r)
          else if c =? 91 then parse_arr_first f (skip_ws r)
          else if c =? 34 then
            match parse_chars (length r + 1) r [] with
            | Some (str, r') => Some (JStr str, r')
            | None => None
            end
          else if (c =? 45) || is_digit c then
            match parse_number (c :: r) with
            | Some (q, r') => Some (JNum q, r')
            | None => None
            end
          else
            match strip_prefix (s2j "null") (c :: r) with
            | Some r' => Some (JNull, r')
            | None =>
              match strip_prefix (s2j "true") (c :: r) with
              | Some r' => Some (JBool true, r')
              | None =>
                match strip_prefix (s2j "false") (c :: r) with
                | Some r' => Some (JBool false, r')
                | None => None
                end
              end
            end
      end
  end
with parse_arr_first (fuel : nat) (s : jstr) {struct fuel} : option (jv * jstr) :=
  match fuel with
  | O => None
  | S f =>
      match s with
      | 93 :: r => Some (JArr [], r)
      | _ =>
          match parse_value f s with
          | Some (v, r) => parse_arr_rest f [v] (skip_ws r)
          | None => None
          end
      end
  end
with parse_arr_rest (fuel : nat) (acc : list jv) (s : jstr) {struct fuel} : option (jv * jstr) :=
  match fuel with
  | O => None
  | S f =>
      match s with
      | 93 :: r => Some (JArr (rev acc), r)
      | 44 :: r =>
          match parse_value f r with
          | Some (v, r') => parse_arr_rest f (v :: acc) (skip_ws r')
          | None => None
          end
      | _ => None
      end
  end
with parse_obj_first (fuel : nat) (s : jstr) {struct fuel} : option (jv * jstr) :=
  match fuel with
  | O => None
  | S f =>
      match s with
      | 125 :: r => Some (JObj [], r)
      | _ => parse_member f [] s
      end
  end
with parse_member (fuel : nat) (acc : list (jstr * jv)) (s : jstr) {struct fuel}
    : option (jv * jstr) :=
  match fuel with
  | O => None
  | S f =>
      match s with
      | 34 :: r =>
          match parse_chars (length r + 1) r [] with
          | Some (k, r1) =>
              match skip_ws r1 with
              | 58 :: r2 =>
                  match parse_value f r2 with
                  | Some (v, r3) => parse_obj_rest f ((k, v) :: acc) (skip_ws r3)
                  | None => None
                  end
              | _ => None
              end
          | None => None
          end
      | _ => None
      end
  end
with parse_obj_rest (fuel : nat) (acc : list (jstr * jv)) (s : jstr) {struct fuel}
    : option (jv * jstr) :=
  match fuel with
  | O => None
  | S f =>
      match s with
      | 125 :: r => Some (JObj (rev acc), r)
      | 44 :: r => parse_member f acc (skip_ws r)
      | _ => None
      end
  end.

(** [JSON.parse s]: [None] is the [SyntaxError] it throws.  Between two
    nested calls at most one does not consume input, so [2 * length s + 2]
    levels of fuel are enough for the inputs we evaluate. *)
Definition parse (s : jstr) : option jv :=
  match parse_value (2 * length s + 2) s with
  | Some (v, r) => match skip_ws r with [] => Some v | _ => None end
  | None => None
  end.

(** ToBoolean on the values [JSON.parse] yields. *)
Definition truthy (v : jv) : bool :=
  match v with
  | JNull => false
  | JBool b => b
  | JNum q => negb (Qeq_bool q 0)
  | JStr s => match s with [] => false | _ => true end
  | JArr _ | JObj _ => true
  end.

End Json.

Module Badges.
Import Json.

(** The exceptions the badge code can raise: only [TypeError]. *)
Inductive exn := TypeError.

(** [const loadStorage = (key, fallback) => { try { const value =
    localStorage.getItem(key); return value ? JSON.parse(value) : fallback; }
    catch (error) { return fallback; } }].  The empty string is falsy. *)
Definition loadStorage (storage : gmap string jstr) (key : string) (fallback : jv) : jv :=
  match storage !! key with
  | Some ((_ :: _) as value) =>
      match parse value with
      | Some v => v
      | None => fallback
      end
  | _ => fallback
  end.

(** The accumulator of [cart.reduce]: a number, or, once a string was
    added, a string written as the list of values whose [ToString] it
    concatenates (a number is rendered by Number::toString, an array by
    [join], an object as "[object Object]"). *)
Inductive acc := ANum (q : Q) | AStr (parts : list jv).

(** [ToPrimitive] succeeds on the value: an object literal with an own
    [toString] member (never callable in JSON) throws, and [join] applies
    this to the elements of an array. *)
Fixpoint prim_ok (v : jv) : bool :=
  match v with
  | JObj fs => match lookup_last (s2j "toString") fs with None => true | Some _ => false end
  | JArr l => (fix go (l : list jv) : bool :=
                 match l with [] => true | x :: r => prim_ok x && go r end) l
  | _ => true
  end.

(** [sum + x] for the operands the reducer meets. *)
Definition js_add (a : acc) (x : jv) : option acc :=
  match a with
  | ANum q =>
      match x with
      | JNum r => Some (ANum (q + r)%Q)
      | JBool b => Some (ANum (q + if b then 1 else 0)%Q)
      | JNull => Some (ANum q)
      | JStr _ => Some (AStr [JNum q; x])
      | JArr _ | JObj _ => if prim_ok x then Some (AStr [JNum q; x]) else None
      end
  | AStr ps => if prim_ok x then Some (AStr (ps ++ [x])) else None
  end.

(** [item.qty || 1]: reading a property of [null] throws; on primitives
    and arrays [qty] is [undefined]. *)
Definition qty_or_one (item : jv) : option jv :=
  match item with
  | JNull => None
  | JObj fs =>
      match lookup_last (s2j "qty") fs with
      | Some v => if truthy v then Some v else Some (JNum 1)
      | None => Some (JNum 1)
      end
  | _ => Some (JNum 1)
  end.

(** The reducer [(sum, item) => sum + (item.qty || 1)] folded over the items. *)
Fixpoint cart_sum (a : acc) (items : list jv) : option acc :=
  match items with
  | [] => Some a
  | item :: rest =>
      match qty_or_one item with
      | None => None
      | Some x =>
          match js_add a x with
          | None => None
          | Some a' => cart_sum a' rest
          end
      end
  end.

(** [cart.reduce(..., 0)]: only an array has a callable [reduce]. *)
Definition cartCount (cart : jv) : option acc :=
  match cart with
  | JArr items => cart_sum (ANum 0) items
  | _ => None
  end.

(** [wishlist.length]: [None] is the TypeError on [null]; the inner
    [None] is [undefined]. *)
Definition wishlistCount (wishlist : jv) : option (option jv) :=
  match wishlist with
  | JNull => None
  | JArr l => Some (Some (JNum (inject_Z (Z.of_nat (length l)))))
  | JStr s => Some (Some (JNum (inject_Z (Z.of_nat (length s)))))
  | JObj fs => Some (lookup_last (s2j "length") fs)
  | JNum _ | JBool _ => Some None
  end.

(** Text content of a badge: the markup's own text, or the value the code
    assigned to [textContent]. *)
Inductive shown :=
  | Markup (s : jstr)
  | CartText (a : acc)
  | WishText (v : option jv).

(** [#cart-count] and [#wishlist-count]; [None] when the element is absent. *)
Record badges := mkBadges { cart_badge : option shown; wishlist_badge : option shown }.

(** [syncBadges]: [None] is an uncaught [TypeError]; it is raised before
    either badge is written. *)
Definition syncBadges (storage : gmap string jstr) (b : badges) : option badges :=
  let cart := loadStorage storage "veloura-cart" (JArr []) in
  let wishlist := loadStorage storage "veloura-wishlist" (JArr []) in
  match cartCount cart with
  | None => None
  | Some cc =>
      match wishlistCount wishlist with
      | None => None
      | Some wc =>
          Some (mkBadges (option_map (fun _ => CartText cc) (cart_badge b))
                         (option_map (fun _ => WishText wc) (wishlist_badge b)))
      end
  end.

End Badges.

Module Theme.

(** The theme attribute of [document.documentElement] and the text of
    [#theme-toggle] ([None] when the button is absent). *)
Record theme_dom := mkTheme { root_theme : option jstr; toggle_text : option jstr }.

Definition label_for (theme : jstr) : jstr :=
  if decide (theme = s2j "dark") then s2j "Light" else s2j "Dark".

(** [initTheme]: [stored || system]; an empty stored string is falsy. *)
Definition initTheme (storage : gmap string jstr) (system_dark : bool) (d : theme_dom) : theme_dom :=
  let system := if system_dark then s2j "dark" else s2j "light" in
  let theme := match storage !! "veloura-theme" with
               | Some ((_ :: _) as stored) => stored
               | _ => system
               end in
  mkTheme (Some theme) (option_map (fun _ => label_for theme) (toggle_text d)).

(** The click listener of [#theme-toggle]: flip, persist, relabel.
    [getAttribute] returns [null] ([None]) when the attribute is unset. *)
Definition themeClick (storage : gmap string jstr) (d : theme_dom) : gmap string jstr * theme_dom :=
  let current := root_theme d in
  let next := if decide (current = Some (s2j "dark")) then s2j "light" else s2j "dark" in
  (<["veloura-theme" := next]> storage, mkTheme (Some next) (Some (label_for next))).

End Theme.

Module Format.

(** Decimal digits of a non-negative integer, least significant first;
    [fuel] bounds the number of digits. *)
Fixpoint dec_rev (fuel : nat) (n : Z) : jstr :=
  match fuel with
  | O => []
  | S f => if n <? 10 then [48 + n] else (48 + n mod 10) :: dec_rev f (n / 10)
  end.

(** [String(value)] on an integral number: an integer has at most
    [log2 |v| + 1] decimal digits. *)
Definition num_to_string (v : Z) : jstr :=
  if v <? 0 then 45 :: rev (dec_rev (S (Z.to_nat (Z.log2 (- v)))) (- v))
  else rev (dec_rev (S (Z.to_nat (Z.log2 v))) v).

(** [s.padStart(len, fill)] with a one-code-unit [fill]. *)
Definition padStart (s : jstr) (len : nat) (fill : Z) : jstr :=
  repeat fill (len - length s) ++ s.

(** [const pad = (value) => String(value).padStart(2, "0")]. *)
Definition pad (value : Z) : jstr := padStart (num_to_string value) 2 48.

End Format.

Module Countdown.

(** [3 * 24 * 60 * 60 * 1000] milliseconds. *)
Definition three_days : Z := 3 * 24 * 60 * 60 * 1000.

(** [Math.floor], and the truncation that JavaScript's [%] uses. *)
Definition js_trunc (x : Q) : Z := if Qle_bool 0 x then Qfloor x else - Qfloor (- x).

(** [x % m] on numbers: the remainder has the sign of the dividend. *)
Definition js_fmod (x m : Q) : Q := (x - m * inject_Z (js_trunc (x / m)))%Q.

(** The four displayed components of [remaining] milliseconds.  Dates
    subtract to whole milliseconds; the quotients are computed exactly here,
    and for these magnitudes the double results have the same floors. *)
Definition components (remaining : Z) : Z * Z * Z * Z :=
  let r := inject_Z remaining in
  (Qfloor (r / inject_Z (1000 * 60 * 60 * 24)),
   Qfloor (js_fmod (r / inject_Z (1000 * 60 * 60)) 24),
   Qfloor (js_fmod (r / inject_Z (1000 * 60)) 60),
   Qfloor (js_fmod (r / inject_Z 1000) 60)).

(** [tick]: the three clock reads of one run are [t1] ([new Date()] in the
    [diff]), [t2] ([Date.now()] in the re-base) and [t3] ([new Date()] in
    [remaining]).  Returns the new [state.countdownTarget] and the
    components written to [#days], [#hours], [#minutes], [#seconds]. *)
Definition tick (target t1 t2 t3 : Z) : Z * (Z * Z * Z * Z) :=
  let diff := target - t1 in
  let target' := if diff <=? 0 then t2 + three_days else target in
  let remaining := target' - t3 in
  (target', components remaining).

(** The texts [tick] writes to [#days], [#hours], [#minutes], [#seconds]. *)
Definition display (cs : Z * Z * Z * Z) : jstr * jstr * jstr * jstr :=
  let '(d, h, m, sec) := cs in (Format.pad d, Format.pad h, Format.pad m, Format.pad sec).

End Countdown.

Module Carousel.

(** [a % b] on integers: NaN ([None]) when [b] is 0, else the truncated
    remainder. *)
Definition js_rem (a b : Z) : option Z := if b =? 0 then None else Some (Z.rem a b).

(** [goToSlide(index)] on a track of [n] slides; [None] is NaN, which
    [NaN + n] and [NaN % n] propagate.  The sum [index + n] is taken
    exactly: the page only passes a dot index or the current index plus or
    minus 1, on fewer than 2^32 slides, where the double sum is exact
    ([round_double] is the identity up to 2^53). *)
Definition goToSlide (n : nat) (index : option Z) : option Z :=
  match index with
  | Some k => js_rem (k + Z.of_nat n) (Z.of_nat n)
  | None => None
  end.

(** [next] (also the autoplay callback) and the [#prev-testimonial] listener. *)
Definition next (n : nat) (i : option Z) : option Z := goToSlide n (option_map (fun z => z + 1) i).
Definition prev (n : nat) (i : option Z) : option Z := goToSlide n (option_map (fun z => z - 1) i).

(** Everything that moves [state.testimonialIndex] after [initTestimonials]. *)
Inductive cev := PrevClick | NextClick | DotClick (k : nat) | AutoplayFire.

Definition cstep (n : nat) (i : option Z) (e : cev) : option Z :=
  match e with
  | PrevClick => prev n i
  | NextClick => next n i
  | DotClick k => goToSlide n (Some (Z.of_nat k))
  | AutoplayFire => next n i
  end.

(** [state.testimonialIndex] starts at 0. *)
Definition crun (n : nat) (evs : list cev) : option Z := fold_left (cstep n) evs (Some 0).

End Carousel.

Module Tabs.

(** [classList.toggle("is-active", b)] on element [e] of a flag map. *)
Definition set_flag (a : nat -> bool) (e : nat) (b : bool) : nat -> bool :=
  fun e' => if Nat.eqb e' e then b else a e'.

(** The click listener of tab [t]: [tabs] and [panels] are the node lists
    of [.tab] and [.tab-panel] (elements named by distinct numbers, so [===]
    is [Nat.eqb]); [data_tab] and [data_panel] read the dataset, [None]
    being [undefined]. *)
Definition tabClick (tabs panels : list nat) (data_tab data_panel : nat -> option jstr)
    (t : nat) (active : nat -> bool) : nat -> bool :=
  let target := data_tab t in
  let a1 := fold_left (fun a btn => set_flag a btn (Nat.eqb btn t)) tabs active in
  fold_left (fun a panel => set_flag a panel (bool_decide (data_panel panel = target))) panels a1.

End Tabs.

Module Page.
Import Json Badges Theme Countdown Carousel Tabs.

(** The static markup the initializers query; elements are named by
    numbers. *)
Record page := mkPage {
  pg_reveal : list nat;                 (** [.reveal] *)
  pg_tabs : list nat;                   (** [.tab] *)
  pg_panels : list nat;                 (** [.tab-panel] *)
  pg_data_tab : nat -> option jstr;
  pg_data_panel : nat -> option jstr;
  pg_toggle : bool;                     (** [#theme-toggle] present *)
  pg_days : bool;                       (** [#days] present *)
  pg_hours : bool;                      (** [#hours] present *)
  pg_minutes : bool;                    (** [#minutes] present *)
  pg_seconds : bool;                    (** [#seconds] present *)
  pg_slides : option nat;               (** slide count, when [#testimonial-track] and [#testimonial-dots] exist *)
  pg_prev : bool;                       (** [#prev-testimonial] present *)
  pg_next : bool;                       (** [#next-testimonial] present *)
  pg_back_to_top : option nat;          (** [#back-to-top] *)
  pg_arrival : option nat;              (** [#arrival-track] *)
  pg_system_dark : bool                 (** [prefers-color-scheme: dark] *)
}.

(** Before [DOMContentLoaded]; running; stopped by the [TypeError] of the
    first countdown tick, after [initTheme], [initReveal] and [initTabs]
    registered their listeners and before [initTestimonials],
    [initBackToTop] and [initArrivalSkeleton] ran; or stopped by an
    exception of [syncBadges], before anything was registered. *)
Inductive phase := Loading | Running | Partial | Crashed.

Record world := mkWorld {
  w_phase : phase;
  w_storage : gmap string jstr;         (** [localStorage] *)
  w_badges : badges;
  w_theme : theme_dom;
  w_cls : string -> nat -> bool;        (** [classList] of the markup, per class name *)
  w_index : option Z;                   (** [state.testimonialIndex] *)
  w_dots : list bool;                   (** [is-active] of the generated [.dot] buttons *)
  w_target : Z;                         (** [state.countdownTarget], in ms *)
  w_shown : list Z                      (** the numbers the last tick wrote to [#days],
                                            [#hours], [#minutes], [#seconds], in order *)
}.

(** [classList.toggle(c, b)] / [add] / [remove] on element [e]. *)
Definition set_class (cls : string -> nat -> bool) (c : string) (e : nat) (b : bool)
    : string -> nat -> bool :=
  fun c' => if decide (c' = c) then Tabs.set_flag (cls c) e b else cls c'.

(** The [update] closure of [initTestimonials] on the dots. *)
Definition dots_for (n : nat) (index : option Z) : list bool :=
  map (fun idx => match index with Some i => Z.of_nat idx =? i | None => false end) (seq 0 n).

(** The four [textContent] writes at the end of [tick] ([#days] exists
    whenever [tick] runs): the numbers written, and whether the write to
    an absent field ([querySelector] gives [null]) threw a [TypeError]. *)
Definition write_fields (pg : page) (cs : Z * Z * Z * Z) : list Z * bool :=
  let '(d, h, m, sec) := cs in
  if pg_hours pg then
    if pg_minutes pg then
      if pg_seconds pg then ([d; h; m; sec], false) else ([d; h; m], true)
    else ([d; h], true)
  else ([d], true).

(** The browser events that run code of the page.  [DOMContentLoaded]
    carries the clock readings of [initCountdown] (line 148) and of its
    first [tick] (lines 152, 154 and 156). *)
Inductive event :=
  | DOMContentLoaded (now t1 t2 t3 : Z)
  | ThemeToggleClick
  | Intersect (e : nat) (isIntersecting : bool)
  | TabClick (t : nat)
  | CountdownInterval (t1 t2 t3 : Z)
  | Carousel (c : cev)
  | Scroll (scrollY : Z)
  | BackToTopClick
  | ArrivalTimeout
  | AnimationFrame.

Definition set_index (pg : page) (w : world) (n : nat) (i : option Z) : world :=
  {| w_phase := w_phase w; w_storage := w_storage w; w_badges := w_badges w;
     w_theme := w_theme w; w_cls := w_cls w; w_index := i; w_dots := dots_for n i;
     w_target := w_target w; w_shown := w_shown w |}.

Definition set_cls (w : world) (cls : string -> nat -> bool) : world :=
  {| w_phase := w_phase w; w_storage := w_storage w; w_badges := w_badges w;
     w_theme := w_theme w; w_cls := cls; w_index := w_index w; w_dots := w_dots w;
     w_target := w_target w; w_shown := w_shown w |}.

(** [App.init]: [syncBadges] first; if it throws, nothing else runs.
    Then [initTheme]; the headline split, the parallax and the observers
    and tab listeners only register code, run by later events, or change
    styles.  [initCountdown] sets the target from [now] and runs [tick];
    if that throws, [initTestimonials] and the initializers after it never
    run. *)
Definition init (pg : page) (w : world) (now t1 t2 t3 : Z) : world :=
  match syncBadges (w_storage w) (w_badges w) with
  | None =>
      {| w_phase := Crashed; w_storage := w_storage w; w_badges := w_badges w;
         w_theme := w_theme w; w_cls := w_cls w; w_index := w_index w; w_dots := w_dots w;
         w_target := w_target w; w_shown := w_shown w |}
  | Some b =>
      let th := initTheme (w_storage w) (pg_system_dark pg) (w_theme w) in
      let '(target, shown, threw) :=
        if pg_days pg then
          let '(tg, cs) := tick (now + three_days) t1 t2 t3 in
          let '(written, threw) := write_fields pg cs in (tg, written, threw)
        else (w_target w, w_shown w, false) in
      if threw then
        {| w_phase := Partial; w_storage := w_storage w; w_badges := b;
           w_theme := th; w_cls := w_cls w; w_index := w_index w; w_dots := w_dots w;
           w_target := target; w_shown := shown |}
      else
        let dots := match pg_slides pg with
                    | Some n => dots_for n (w_index w)
                    | None => w_dots w
                    end in
        {| w_phase := Running; w_storage := w_storage w; w_badges := b;
           w_theme := th; w_cls := w_cls w; w_index := w_index w; w_dots := dots;
           w_target := target; w_shown := shown |}
  end.

(** One event: the listeners and timer callbacks the page has
    registered. *)
Definition step (pg : page) (w : world) (ev : event) : world :=
  match w_phase w, ev with
  | Loading, DOMContentLoaded now t1 t2 t3 => init pg w now t1 t2 t3
  | (Running | Partial), ThemeToggleClick =>
      if pg_toggle pg then
        let '(st, th) := themeClick (w_storage w) (w_theme w) in
        {| w_phase := w_phase w; w_storage := st; w_badges := w_badges w;
           w_theme := th; w_cls := w_cls w; w_index := w_index w; w_dots := w_dots w;
           w_target := w_target w; w_shown := w_shown w |}
      else w
  | (Running | Partial), Intersect e isect =>
      if existsb (Nat.eqb e) (pg_reveal pg) && isect
      then set_cls w (set_class (w_cls w) "is-visible" e true)
      else w
  | (Running | Partial), TabClick t =>
      if existsb (Nat.eqb t) (pg_tabs pg) then
        let act := tabClick (pg_tabs pg) (pg_panels pg) (pg_data_tab pg) (pg_data_panel pg) t
                            (w_cls w "is-active") in
        set_cls w (fun c => if decide (c = "is-active") then act else w_cls w c)
      else w
  | Running, CountdownInterval t1 t2 t3 =>
      if pg_days pg then
        let '(tg, cs) := tick (w_target w) t1 t2 t3 in
        {| w_phase := w_phase w; w_storage := w_storage w; w_badges := w_badges w;
           w_theme := w_theme w; w_cls := w_cls w; w_index := w_index w; w_dots := w_dots w;
           w_target := tg; w_shown := fst (write_fields pg cs) |}
      else w
  | Running, Carousel c =>
      match pg_slides pg with
      | Some n =>
          let registered :=
            match c with
            | PrevClick => pg_prev pg
            | NextClick => pg_next pg
            | DotClick k => Nat.ltb k n
            | AutoplayFire => true
            end in
          if registered then set_index pg w n (cstep n (w_index w) c) else w
      | None => w
      end
  | Running, Scroll y =>
      match pg_back_to_top pg with
      | Some b => set_cls w (set_class (w_cls w) "is-visible" b (400 <? y))
      | None => w
      end
  | Running, ArrivalTimeout =>
      match pg_arrival pg with
      | Some a => set_cls w (set_class (w_cls w) "is-loading" a false)
      | None => w
      end
  | _, _ => w
  end.

Definition run (pg : page) (evs : list event) (w : world) : world := fold_left (step pg) evs w.

(** The page as loaded: nothing stored in [w_cls] yet, index 0. *)
Definition fresh (storage : gmap string jstr) : world :=
  {| w_phase := Loading; w_storage := storage;
     w_badges := mkBadges (Some (Markup [])) (Some (Markup []));
     w_theme := mkTheme None (Some (s2j "Dark"));
     w_cls := fun _ _ => false; w_index := Some 0; w_dots := [];
     w_target := 0; w_shown := [] |}.

End Page.

(** * Properties *)

Import Json Badges.

(** Both badge elements present. *)
Definition both_badges : badges := mkBadges (Some (Markup [])) (Some (Markup [])).

(** The badges [syncBadges] writes when both collections fall back to [[]]. *)
Definition zero_badges (b : badges) : badges :=
  mkBadges (option_map (fun _ => CartText (ANum 0)) (cart_badge b))
           (option_map (fun _ => WishText (Some (JNum 0))) (wishlist_badge b)).

(** A stored value that does not have the layout of the storage keys: it
    does not parse to a JSON array. *)
Definition malformed (v : jstr) : bool :=
  match parse v with Some (JArr _) => false | _ => true end.

(** Absent, empty, or rejected by [JSON.parse]: the cases [loadStorage] catches. *)
Definition unreadable (storage : gmap string jstr) (key : string) : Prop :=
  match storage !! key with
  | None => True
  | Some v => v = [] \/ parse v = None
  end.

Lemma loadStorage_unreadable (storage : gmap string jstr) (key : string) (fallback : jv) :
  unreadable storage key -> loadStorage storage key fallback = fallback.
Proof.
  unfold unreadable, loadStorage.
  destruct (storage !! key) as [[|c r]|]; intros H; auto.
  destruct H as [H|H]; [discriminate|]. now rewrite H.
Qed.

(** C1 (as stated, with "malformed" read as "not a JSON array", the
    layout of the keys): refuted.  A stored cart ["null"] parses, and
    [null.reduce] throws a [TypeError] out of [syncBadges]. *)
Lemma C1_null_cart_throws :
  ~ (forall storage : gmap string jstr,
       (storage !! "veloura-cart" = None \/
          exists v, storage !! "veloura-cart" = Some v /\ malformed v = true) ->
       (storage !! "veloura-wishlist" = None \/
          exists v, storage !! "veloura-wishlist" = Some v /\ malformed v = true) ->
       syncBadges storage both_badges = Some (zero_badges both_badges)).
Proof.
  intros H.
  specialize (H (<["veloura-cart" := s2j "null"]> ∅)).
  assert (Hnone : syncBadges (<["veloura-cart" := s2j "null"]> ∅) both_badges = None)
    by reflexivity.
  rewrite Hnone in H. discriminate H.
  - right. exists (s2j "null"). split; reflexivity.
  - left. reflexivity.
Qed.

(** C1 (amended): when the stored cart and wishlist are each absent,
    empty, or not valid JSON, [syncBadges] does not throw and writes 0 to
    every badge element present. *)
Theorem C1_unreadable_storage_zero (storage : gmap string jstr) (b : badges) :
  unreadable storage "veloura-cart" ->
  unreadable storage "veloura-wishlist" ->
  syncBadges storage b = Some (zero_badges b).
Proof.
  intros Hc Hw. unfold syncBadges.
  rewrite (loadStorage_unreadable _ _ _ Hc), (loadStorage_unreadable _ _ _ Hw).
  reflexivity.
Qed.

Lemma C1_unreadable_storage_zero_witness :
  unreadable (<["veloura-cart" := s2j "{oops"]> ∅) "veloura-cart" /\
  unreadable (<["veloura-cart" := s2j "{oops"]> ∅) "veloura-wishlist" /\
  syncBadges (<["veloura-cart" := s2j "{oops"]> ∅) both_badges = Some (zero_badges both_badges).
Proof.
  assert (Hc : unreadable (<["veloura-cart" := s2j "{oops"]> ∅) "veloura-cart")
    by (right; reflexivity).
  assert (Hw : unreadable (<["veloura-cart" := s2j "{oops"]> ∅) "veloura-wishlist")
    by exact I.
  split; [exact Hc|]. split; [exact Hw|].
  exact (C1_unreadable_storage_zero _ _ Hc Hw).
Defined.

Import Theme.

(** Two clicks of the theme toggle. *)
Definition click_twice (storage : gmap string jstr) (d : theme_dom) : gmap string jstr * theme_dom :=
  let '(st1, d1) := themeClick storage d in themeClick st1 d1.

(** C2 (as stated): refuted.  With nothing stored and the system in light
    mode, [initTheme] sets the attribute to "light"; two clicks restore it
    but leave "light" stored where nothing was. *)
Lemma C2_stored_preference_not_restored :
  ~ (forall (storage : gmap string jstr) (d : theme_dom),
       root_theme (snd (click_twice storage d)) = root_theme d /\
       fst (click_twice storage d) !! "veloura-theme" = storage !! "veloura-theme").
Proof.
  intros H.
  destruct (H ∅ (initTheme ∅ false (mkTheme None (Some (s2j "Dark"))))) as [_ H2].
  vm_compute in H2. discriminate H2.
Qed.

(** C2 (amended): when the theme attribute is "dark" or "light", two clicks
    restore it, and the stored preference afterwards equals it; so the
    stored preference comes back to its value exactly when it held that
    attribute before. *)
Theorem C2_toggle_twice (storage : gmap string jstr) (d : theme_dom) (theme : jstr) :
  root_theme d = Some theme ->
  theme = s2j "dark" \/ theme = s2j "light" ->
  root_theme (snd (click_twice storage d)) = Some theme /\
  fst (click_twice storage d) = <["veloura-theme" := theme]> storage.
Proof.
  intros Hr Ht. unfold click_twice, themeClick. rewrite Hr. simpl.
  destruct Ht as [->| ->]; simpl; rewrite insert_insert_eq; auto.
Qed.

Lemma C2_toggle_twice_witness :
  root_theme (mkTheme (Some (s2j "light")) None) = Some (s2j "light") /\
  root_theme (snd (click_twice ∅ (mkTheme (Some (s2j "light")) None))) = Some (s2j "light") /\
  fst (click_twice ∅ (mkTheme (Some (s2j "light")) None)) = <["veloura-theme" := s2j "light"]> ∅.
Proof.
  split; [reflexivity|].
  apply (C2_toggle_twice ∅ (mkTheme (Some (s2j "light")) None) (s2j "light")).
  - reflexivity.
  - right; reflexivity.
Defined.

Import Countdown.

Lemma Qfloor_nonneg (x : Q) : (0 <= x)%Q -> 0 <= Qfloor x.
Proof. intros H. pose proof (Qfloor_resp_le 0 x H) as H'. simpl in H'. exact H'. Qed.

Lemma Qdiv_nonneg (x m : Q) : (0 <= x)%Q -> (0 < m)%Q -> (0 <= x / m)%Q.
Proof. intros Hx Hm. apply Qle_shift_div_l; [exact Hm|]. rewrite Qmult_0_l. exact Hx. Qed.

(** On a non-negative dividend, [%] is the remainder of floor division. *)
Lemma js_fmod_nonneg (x m : Q) : (0 <= x)%Q -> (0 < m)%Q -> (0 <= js_fmod x m)%Q.
Proof.
  intros Hx Hm. unfold js_fmod, js_trunc.
  pose proof (Qdiv_nonneg x m Hx Hm) as Hd.
  apply Qle_bool_iff in Hd as Hb. rewrite Hb.
  assert (Hf : (inject_Z (Qfloor (x / m)) <= x / m)%Q) by apply Qfloor_le.
  apply (Qmult_le_l _ _ m Hm) in Hf.
  rewrite Qmult_div_r in Hf; [apply Qle_minus_iff in Hf; exact Hf|].
  intros E. rewrite E in Hm. discriminate Hm.
Qed.

Lemma components_nonneg (r : Z) :
  0 <= r ->
  let '(d, h, m, s) := components r in 0 <= d /\ 0 <= h /\ 0 <= m /\ 0 <= s.
Proof.
  intros Hr. unfold components.
  assert (Hq : (0 <= inject_Z r)%Q) by (change 0%Q with (inject_Z 0); rewrite <- Zle_Qle; exact Hr).
  repeat split; apply Qfloor_nonneg;
    try apply js_fmod_nonneg; try apply Qdiv_nonneg; try exact Hq; reflexivity.
Qed.

(** When the three clock reads of a tick agree, the tick keeps its
    promises: the target ends in the future and no component is negative;
    a tick that shows negative components needs the clock to move during it. *)
Lemma tick_frozen_clock (target t : Z) :
  let '(tg, (d, h, m, s)) := tick target t t t in
  t < tg /\ 0 <= d /\ 0 <= h /\ 0 <= m /\ 0 <= s.
Proof.
  unfold tick. cbv zeta.
  set (tg := if target - t <=? 0 then t + three_days else target).
  assert (Htg : t < tg)
    by (unfold tg; destruct (Z.leb_spec (target - t) 0); unfold three_days; lia).
  pose proof (components_nonneg (tg - t) ltac:(lia)) as Hc.
  destruct (components (tg - t)) as [[[d h] m] s]. tauto.
Qed.

(** C3 (code bug): the guard reads the clock once ([diff]) and the display
    reads it again ([remaining]).  With the target 1 ms ahead at the first
    read and 2 ms later at the others, no re-base happens, [remaining] is
    -1 and every component is -1, the target being in the past. *)
Theorem C3_tick_clock_race :
  tick 1000 999 1001 1001 = (1000, (-1, -1, -1, -1)).
Proof. reflexivity. Qed.

Import Carousel.

(** C4 (as stated, for every integer argument): refuted at [goToSlide(-4)]
    on three slides, which sets the index to [(-4 + 3) % 3 = -1]. *)
Lemma C4_goToSlide_minus_four :
  goToSlide 3 (Some (-4)) = Some (-1) /\
  ~ (forall (n : nat) (k : Z), (1 <= n)%nat ->
       exists i, goToSlide n (Some k) = Some i /\ i = k mod Z.of_nat n /\ 0 <= i < Z.of_nat n).
Proof.
  split; [reflexivity|].
  intros H. destruct (H 3%nat (-4) ltac:(lia)) as (i & Hi & _ & Hr).
  vm_compute in Hi. injection Hi as <-. lia.
Qed.

(** [goToSlide] on an argument no smaller than [-n] is [k mod n]. *)
Lemma goToSlide_mod (n : nat) (k : Z) :
  (1 <= n)%nat -> - Z.of_nat n <= k ->
  goToSlide n (Some k) = Some (k mod Z.of_nat n) /\ 0 <= k mod Z.of_nat n < Z.of_nat n.
Proof.
  intros Hn Hk. unfold goToSlide, js_rem.
  destruct (Z.eqb_spec (Z.of_nat n) 0) as [E|_]; [lia|].
  split.
  - rewrite Z.rem_mod_nonneg by lia.
    replace (k + Z.of_nat n) with (k + 1 * Z.of_nat n) by lia.
    now rewrite Z_mod_plus_full.
  - apply Z.mod_pos_bound. lia.
Qed.

(** On integers of magnitude at most 2^53, rounding to a double is the
    identity. *)
Lemma round_double_small (x : Z) : Z.abs x <= 2 ^ 53 -> round_double x = x.
Proof.
  intros H. unfold round_double. destruct (Z.leb_spec (Z.abs x) (2 ^ 53)); [reflexivity|lia].
Qed.

(** Above 2^53 the double sum rounds: [9007199254740990 + 3] is
    [2^53], so [goToSlide(9007199254740990)] on three slides yields
    [2^53 % 3 = 2], not [9007199254740990 mod 3 = 0]. *)
Lemma goToSlide_sum_rounds :
  round_double (9007199254740990 + 3) = 2 ^ 53 /\ Z.rem (2 ^ 53) 3 = 2 /\
  9007199254740990 mod 3 = 0.
Proof. split; [|split]; reflexivity. Qed.

(** C4 (amended): for arguments [k] with [-n <= k] and [k + n <= 2^53]
    (every argument the page passes: a dot index, or the current index
    plus or minus one), the double sum [k + n] is exact and [goToSlide(k)]
    sets the index to [k mod n], which lies in [[0, n)]. *)
Theorem C4_goToSlide_wraps (n : nat) (k : Z) :
  (1 <= n)%nat -> - Z.of_nat n <= k -> k + Z.of_nat n <= 2 ^ 53 ->
  round_double (k + Z.of_nat n) = k + Z.of_nat n /\
  goToSlide n (Some k) = Some (k mod Z.of_nat n) /\ 0 <= k mod Z.of_nat n < Z.of_nat n.
Proof.
  intros Hn Hk Hb. split.
  - apply round_double_small. lia.
  - apply goToSlide_mod; assumption.
Qed.

Lemma C4_goToSlide_wraps_witness :
  goToSlide 3 (Some (-1)) = Some 2 /\ goToSlide 3 (Some 3) = Some 0.
Proof.
  split.
  - destruct (C4_goToSlide_wraps 3 (-1) ltac:(lia) ltac:(lia) ltac:(lia)) as (_ & H & _). exact H.
  - destruct (C4_goToSlide_wraps 3 3 ltac:(lia) ltac:(lia) ltac:(lia)) as (_ & H & _). exact H.
Defined.

Import Tabs.

(** The flag of [e] after toggling every element of [l] to [f x]. *)
Lemma fold_set_flag (l : list nat) (f : nat -> bool) (a : nat -> bool) (e : nat) :
  fold_left (fun a x => set_flag a x (f x)) l a e =
  if existsb (Nat.eqb e) l then f e else a e.
Proof.
  revert a. induction l as [|x l IH]; intros a; simpl; [reflexivity|].
  rewrite IH. unfold set_flag.
  destruct (Nat.eqb_spec e x) as [->|Hne]; simpl.
  - destruct (existsb (Nat.eqb x) l); reflexivity.
  - reflexivity.
Qed.

Lemma existsb_In (e : nat) (l : list nat) : existsb (Nat.eqb e) l = true <-> In e l.
Proof.
  rewrite existsb_exists. split.
  - intros (x & Hx & E). apply Nat.eqb_eq in E. now subst.
  - intros H. exists e. split; [exact H|]. apply Nat.eqb_refl.
Qed.

(** C5 (as stated): refuted.  A tab whose [data-tab] no panel carries
    leaves no panel active. *)
Lemma C5_no_matching_panel :
  ~ (forall (tabs panels : list nat) (data_tab data_panel : nat -> option jstr)
            (t : nat) (active : nat -> bool),
       In t tabs ->
       exists p, In p panels /\ tabClick tabs panels data_tab data_panel t active p = true /\
         forall q, In q panels ->
           tabClick tabs panels data_tab data_panel t active q = true -> q = p).
Proof.
  intros H.
  destruct (H [0%nat] [1%nat] (fun _ => Some (s2j "new")) (fun _ => Some (s2j "sale"))
              0%nat (fun _ => true) ltac:(simpl; auto)) as (p & Hp & Hact & _).
  destruct Hp as [<-|[]]. vm_compute in Hact. discriminate Hact.
Qed.

(** C5 (amended): for tab and panel lists with no element in both, after
    the click on tab [t] the active tabs are exactly [t], the active panels
    are exactly those whose [data-panel] equals [t]'s [data-tab] (so one
    panel exactly when one panel carries that key), and no other element
    changes. *)
Theorem C5_tab_click (tabs panels : list nat) (data_tab data_panel : nat -> option jstr)
    (t : nat) (active : nat -> bool) :
  In t tabs ->
  (forall e, In e tabs -> ~ In e panels) ->
  (forall b, In b tabs ->
     tabClick tabs panels data_tab data_panel t active b = true <-> b = t) /\
  (forall p, In p panels ->
     tabClick tabs panels data_tab data_panel t active p = true <-> data_panel p = data_tab t) /\
  (forall e, ~ In e tabs -> ~ In e panels ->
     tabClick tabs panels data_tab data_panel t active e = active e).
Proof.
  intros Ht Hdisj. unfold tabClick.
  split; [|split].
  - intros b Hb.
    rewrite (fold_set_flag panels (fun p => bool_decide (data_panel p = data_tab t))).
    destruct (existsb (Nat.eqb b) panels) eqn:E.
    { apply existsb_In in E. exfalso. exact (Hdisj b Hb E). }
    rewrite (fold_set_flag tabs (fun x => Nat.eqb x t)).
    apply existsb_In in Hb. rewrite Hb. apply Nat.eqb_eq.
  - intros p Hp.
    rewrite (fold_set_flag panels (fun p => bool_decide (data_panel p = data_tab t))).
    apply existsb_In in Hp. rewrite Hp. apply bool_decide_eq_true.
  - intros e Hte Hpe.
    rewrite (fold_set_flag panels (fun p => bool_decide (data_panel p = data_tab t))).
    destruct (existsb (Nat.eqb e) panels) eqn:E; [apply existsb_In in E; contradiction|].
    rewrite (fold_set_flag tabs (fun x => Nat.eqb x t)).
    destruct (existsb (Nat.eqb e) tabs) eqn:E'; [apply existsb_In in E'; contradiction|].
    reflexivity.
Qed.

Lemma C5_tab_click_witness :
  tabClick [0%nat; 1%nat] [2%nat; 3%nat]
    (fun e => if Nat.eqb e 0 then Some (s2j "new") else Some (s2j "sale"))
    (fun e => if Nat.eqb e 2 then Some (s2j "new") else Some (s2j "sale"))
    1%nat (fun _ => false) 3%nat = true.
Proof.
  destruct (C5_tab_click [0%nat; 1%nat] [2%nat; 3%nat]
    (fun e => if Nat.eqb e 0 then Some (s2j "new") else Some (s2j "sale"))
    (fun e => if Nat.eqb e 2 then Some (s2j "new") else Some (s2j "sale"))
    1%nat (fun _ => false) ltac:(simpl; auto) ltac:(simpl; intros e [<-|[<-|[]]]; intuition lia))
    as (_ & Hp & _).
  apply (Hp 3%nat ltac:(simpl; auto)). reflexivity.
Defined.

(** An item as the storage layout describes it: an object whose [qty],
    when present, is a number. *)
Definition layout_item (it : jv) : Prop :=
  match it with
  | JObj fs =>
      match lookup_last (s2j "qty") fs with
      | None | Some (JNum _) => True
      | Some _ => False
      end
  | _ => False
  end.

(** The item's quantity, 1 when it has none (the claim's count). *)
Definition stated_qty (it : jv) : Q :=
  match it with
  | JObj fs => match lookup_last (s2j "qty") fs with Some (JNum q) => q | _ => 1%Q end
  | _ => 1%Q
  end.

(** The item's quantity when present and non-zero, 1 otherwise. *)
Definition counted_qty (it : jv) : Q :=
  match it with
  | JObj fs =>
      match lookup_last (s2j "qty") fs with
      | Some (JNum q) => if Qeq_bool q 0 then 1%Q else q
      | _ => 1%Q
      end
  | _ => 1%Q
  end.

Definition qsum (f : jv -> Q) (items : list jv) : Q :=
  fold_left (fun s it => (s + f it)%Q) items 0%Q.

(** C6 (as stated): refuted.  A cart [[{"qty":0}]] has quantity sum 0, but
    the badge shows 1. *)
Lemma C6_zero_qty_counts_one :
  ~ (forall (storage : gmap string jstr) (cs ws : jstr) (items wl : list jv),
       storage !! "veloura-cart" = Some cs -> parse cs = Some (JArr items) ->
       Forall layout_item items ->
       storage !! "veloura-wishlist" = Some ws -> parse ws = Some (JArr wl) ->
       exists q, syncBadges storage both_badges =
                 Some (mkBadges (Some (CartText (ANum q)))
                                (Some (WishText (Some (JNum (inject_Z (Z.of_nat (length wl))))))))
               /\ (q == qsum stated_qty items)%Q).
Proof.
  intros H.
  set (st := <["veloura-wishlist" := s2j "[]"]> (<["veloura-cart" := jtext "[{'qty':0}]"]> ∅)
             : gmap string jstr).
  destruct (H st (jtext "[{'qty':0}]") (s2j "[]") [JObj [(s2j "qty", JNum 0)]] []
              eq_refl eq_refl ltac:(repeat constructor) eq_refl eq_refl) as (q & Hs & Hq).
  vm_compute in Hs. injection Hs as <-. vm_compute in Hq. discriminate Hq.
Qed.

Lemma loadStorage_parsed (storage : gmap string jstr) (key : string) (fallback : jv)
    (s : jstr) (v : jv) :
  storage !! key = Some s -> parse s = Some v -> loadStorage storage key fallback = v.
Proof.
  intros Hs Hp. unfold loadStorage. rewrite Hs.
  destruct s as [|c r]; [discriminate Hp|]. now rewrite Hp.
Qed.

Lemma cart_sum_layout (items : list jv) (a : Q) :
  Forall layout_item items ->
  cart_sum (ANum a) items = Some (ANum (fold_left (fun s it => (s + counted_qty it)%Q) items a)).
Proof.
  intros Hf. revert a. induction Hf as [|it items Hit _ IH]; intros a; [reflexivity|].
  destruct it as [| | | | |fs]; try contradiction Hit.
  unfold layout_item in Hit.
  cbn [cart_sum qty_or_one fold_left]. unfold counted_qty.
  destruct (lookup_last (s2j "qty") fs) as [[| |q| | |]|]; try contradiction Hit.
  - cbn [truthy]. destruct (Qeq_bool q 0); apply IH.
  - apply IH.
Qed.

(** Integer sums: the value of a list, and the sum of absolute values
    that bounds every partial sum. *)
Definition zsum (zs : list Z) : Z := fold_right Z.add 0 zs.
Definition abs_sum (zs : list Z) : Z := fold_right (fun z acc => Z.abs z + acc) 0 zs.

Lemma abs_sum_nonneg (zs : list Z) : 0 <= abs_sum zs.
Proof. induction zs as [|z zs IH]; simpl; lia. Qed.

Lemma zsum_abs (zs : list Z) : Z.abs (zsum zs) <= abs_sum zs.
Proof. induction zs as [|z zs IH]; simpl; lia. Qed.

Lemma abs_sum_firstn (i : nat) (zs : list Z) : abs_sum (firstn i zs) <= abs_sum zs.
Proof.
  revert zs. induction i as [|i IH]; intros [|z zs]; simpl; try lia.
  - pose proof (abs_sum_nonneg (z :: zs)). simpl in *. lia.
  - specialize (IH zs). lia.
Qed.

Lemma abs_sum_each (zs : list Z) (B : Z) :
  abs_sum zs <= B -> Forall (fun z => Z.abs z <= B) zs.
Proof.
  induction zs as [|z zs IH]; intros H; constructor; simpl in H;
    pose proof (abs_sum_nonneg zs); [lia|apply IH; lia].
Qed.

Lemma qsum_integers (items : list jv) (zs : list Z) (a : Q) :
  Forall2 (fun it z => (counted_qty it == inject_Z z)%Q) items zs ->
  (fold_left (fun s it => (s + counted_qty it)%Q) items a == a + inject_Z (zsum zs))%Q.
Proof.
  intros H. revert a. induction H as [|it z items zs Hz _ IH]; intros a; simpl.
  - rewrite Qplus_0_r. reflexivity.
  - rewrite IH, Hz, inject_Z_plus. ring.
Qed.

(** C6 (amended): for a stored cart that parses to an array of layout
    items whose counted quantities (missing or 0 counting 1) are integers
    [zs] with [|z1| + ... + |zk| <= 2^53], and a stored wishlist that
    parses to an array, the cart badge shows the sum of the counted
    quantities and the wishlist badge the length of the wishlist array.
    In that range every quantity and every partial sum of [reduce] is a
    double, so the program's floating-point additions are exact. *)
Theorem C6_badge_counts (storage : gmap string jstr) (cs ws : jstr) (items wl : list jv)
    (zs : list Z) (b : badges) :
  storage !! "veloura-cart" = Some cs -> parse cs = Some (JArr items) ->
  Forall layout_item items ->
  Forall2 (fun it z => (counted_qty it == inject_Z z)%Q) items zs ->
  abs_sum zs <= 2 ^ 53 ->
  storage !! "veloura-wishlist" = Some ws -> parse ws = Some (JArr wl) ->
  syncBadges storage b =
    Some (mkBadges (option_map (fun _ => CartText (ANum (qsum counted_qty items))) (cart_badge b))
                   (option_map (fun _ => WishText (Some (JNum (inject_Z (Z.of_nat (length wl))))))
                               (wishlist_badge b))) /\
  (qsum counted_qty items == inject_Z (zsum zs))%Q /\
  Forall (fun z => round_double z = z) zs /\
  (forall i, round_double (zsum (firstn i zs)) = zsum (firstn i zs)).
Proof.
  intros Hc Hpc Hf Hz Hb Hw Hpw. split; [|split; [|split]].
  - unfold syncBadges.
    rewrite (loadStorage_parsed _ _ _ _ _ Hc Hpc), (loadStorage_parsed _ _ _ _ _ Hw Hpw).
    simpl. rewrite (cart_sum_layout _ _ Hf). reflexivity.
  - unfold qsum. rewrite (qsum_integers _ _ _ Hz). apply Qplus_0_l.
  - refine (Forall_impl _ _ _ (abs_sum_each zs _ Hb) _).
    intros z Hz'. apply round_double_small. exact Hz'.
  - intros i. apply round_double_small.
    pose proof (zsum_abs (firstn i zs)). pose proof (abs_sum_firstn i zs). lia.
Qed.

Lemma C6_badge_counts_witness :
  syncBadges (<["veloura-wishlist" := s2j "[1,2]"]>
               (<["veloura-cart" := jtext "[{'qty':2},{},{'qty':0}]"]> ∅)) both_badges =
  Some (mkBadges (Some (CartText (ANum (qsum counted_qty
                   [JObj [(s2j "qty", JNum 2)]; JObj []; JObj [(s2j "qty", JNum 0)]]))))
                 (Some (WishText (Some (JNum 2))))) /\
  (qsum counted_qty [JObj [(s2j "qty", JNum 2)]; JObj []; JObj [(s2j "qty", JNum 0)]]
     == inject_Z 4)%Q.
Proof.
  destruct (C6_badge_counts
              (<["veloura-wishlist" := s2j "[1,2]"]>
                 (<["veloura-cart" := jtext "[{'qty':2},{},{'qty':0}]"]> ∅))
              (jtext "[{'qty':2},{},{'qty':0}]") (s2j "[1,2]")
              [JObj [(s2j "qty", JNum 2)]; JObj []; JObj [(s2j "qty", JNum 0)]] [JNum 1; JNum 2]
              [2; 1; 1] both_badges)
    as (H1 & H2 & _).
  - reflexivity.
  - vm_compute. reflexivity.
  - repeat constructor.
  - repeat constructor; vm_compute; reflexivity.
  - unfold abs_sum. simpl. lia.
  - reflexivity.
  - vm_compute. reflexivity.
  - split; [exact H1|exact H2].
Defined.

Import Carousel.

(** Every index the carousel reaches from 0 on [n >= 1] slides lies in [[0, n)]. *)
Lemma cstep_in_range (n : nat) (z : Z) (e : cev) :
  (1 <= n)%nat -> 0 <= z < Z.of_nat n ->
  exists z', cstep n (Some z) e = Some z' /\ 0 <= z' < Z.of_nat n.
Proof.
  intros Hn Hz.
  assert (Hgo : forall k, -1 <= k -> exists z', goToSlide n (Some k) = Some z' /\
                                                0 <= z' < Z.of_nat n).
  { intros k Hk. destruct (goToSlide_mod n k Hn ltac:(lia)) as [H1 H2].
    exists (k mod Z.of_nat n). split; assumption. }
  destruct e as [| |k|]; simpl; apply Hgo; lia.
Qed.

Lemma crun_in_range (n : nat) (evs : list cev) :
  (1 <= n)%nat -> exists z, crun n evs = Some z /\ 0 <= z < Z.of_nat n.
Proof.
  intros Hn. unfold crun.
  assert (Hgen : forall i, (exists z, i = Some z /\ 0 <= z < Z.of_nat n) ->
                 exists z, fold_left (cstep n) evs i = Some z /\ 0 <= z < Z.of_nat n).
  { induction evs as [|e evs IH]; intros i (z & -> & Hz); simpl.
    - eauto.
    - apply IH. apply cstep_in_range; assumption. }
  apply Hgen. exists 0. split; [reflexivity|]. lia.
Qed.

(** C7: after any sequence of manual (prev, next, dot) and autoplay moves,
    the next firing of the autoplay timer moves the index from its current
    value [z] to [(z + 1) mod n]. *)
Theorem C7_autoplay_advances (n : nat) (evs : list cev) :
  (1 <= n)%nat ->
  exists z, crun n evs = Some z /\
            crun n (evs ++ [AutoplayFire]) = Some ((z + 1) mod Z.of_nat n).
Proof.
  intros Hn. destruct (crun_in_range n evs Hn) as (z & Hz & Hr).
  exists z. split; [exact Hz|].
  unfold crun in *. rewrite fold_left_app, Hz. simpl.
  destruct (goToSlide_mod n (z + 1) Hn ltac:(lia)) as [H _]. exact H.
Qed.

Lemma C7_autoplay_advances_witness :
  exists z, crun 3 [PrevClick; DotClick 1; NextClick; PrevClick] = Some z /\
            crun 3 ([PrevClick; DotClick 1; NextClick; PrevClick] ++ [AutoplayFire]) =
              Some ((z + 1) mod 3).
Proof.
  exact (C7_autoplay_advances 3 [PrevClick; DotClick 1; NextClick; PrevClick] ltac:(lia)).
Defined.

Import Page.

Lemma init_cls (pg : page) (w : world) (now t1 t2 t3 : Z) :
  w_cls (init pg w now t1 t2 t3) = w_cls w.
Proof. unfold init. repeat case_match; reflexivity. Qed.

Lemma init_storage (pg : page) (w : world) (now t1 t2 t3 : Z) :
  w_storage (init pg w now t1 t2 t3) = w_storage w.
Proof. unfold init. repeat case_match; reflexivity. Qed.

(** Only the intersection callback and the back-to-top scroll listener
    touch [is-visible]; the first only adds it. *)
Lemma step_keeps_visible (pg : page) (w : world) (ev : event) (e : nat) :
  pg_back_to_top pg <> Some e ->
  w_cls w "is-visible" e = true ->
  w_cls (step pg w ev) "is-visible" e = true.
Proof.
  intros Hbt Hv. unfold step.
  destruct (w_phase w), ev; try exact Hv.
  - rewrite init_cls. exact Hv.
  - destruct (pg_toggle pg); [|exact Hv]. destruct (themeClick _ _). exact Hv.
  - case_match; [|exact Hv]. simpl. unfold set_class, set_flag.
    case_decide as Hd; [|congruence]. destruct (Nat.eqb e e0); [reflexivity|exact Hv].
  - case_match; [|exact Hv]. simpl. exact Hv.
  - destruct (pg_days pg); [|exact Hv]. destruct (tick _ _ _ _). exact Hv.
  - destruct (pg_slides pg); [|exact Hv]. case_match; exact Hv.
  - destruct (pg_back_to_top pg) as [b|] eqn:Eb; [|exact Hv]. simpl.
    unfold set_class, set_flag. case_decide as Hd; [|congruence].
    destruct (Nat.eqb_spec e b) as [->|_]; [congruence|exact Hv].
  - destruct (pg_arrival pg); [|exact Hv]. simpl.
    unfold set_class. case_decide as Hd; [discriminate Hd|]. exact Hv.
  - destruct (pg_toggle pg); [|exact Hv]. destruct (themeClick _ _). exact Hv.
  - case_match; [|exact Hv]. simpl. unfold set_class, set_flag.
    case_decide as Hd; [|congruence]. destruct (Nat.eqb e e0); [reflexivity|exact Hv].
  - case_match; [|exact Hv]. simpl. exact Hv.
Qed.

(** A page whose [#back-to-top] button is also a [.reveal] element. *)
Definition reveal_back_to_top : page :=
  mkPage [0%nat] [] [] (fun _ => None) (fun _ => None) false false false false false None
         false false (Some 0%nat) None false.

(** C8 (as stated): refuted.  When the [#back-to-top] button carries the
    [reveal] class, a scroll above 400px toggles [is-visible] off again
    after the intersection callback added it. *)
Lemma C8_back_to_top_removes_visible :
  w_cls (run reveal_back_to_top [DOMContentLoaded 0 0 0 0; Intersect 0 true] (fresh ∅))
        "is-visible" 0%nat = true /\
  ~ (forall (pg : page) (evs : list event) (w : world) (e : nat),
       In e (pg_reveal pg) -> w_cls w "is-visible" e = true ->
       w_cls (run pg evs w) "is-visible" e = true).
Proof.
  split; [reflexivity|].
  intros H.
  specialize (H reveal_back_to_top [Scroll 0]
                (run reveal_back_to_top [DOMContentLoaded 0 0 0 0; Intersect 0 true] (fresh ∅))
                0%nat ltac:(simpl; auto) eq_refl).
  vm_compute in H. discriminate H.
Qed.

(** C8 (amended): for every [.reveal] element other than the
    [#back-to-top] button, once it carries [is-visible] no later event
    removes it. *)
Theorem C8_reveal_one_way (pg : page) (evs : list event) (w : world) (e : nat) :
  In e (pg_reveal pg) ->
  pg_back_to_top pg <> Some e ->
  w_cls w "is-visible" e = true ->
  w_cls (run pg evs w) "is-visible" e = true.
Proof.
  intros _ Hbt. unfold run. revert w.
  induction evs as [|ev evs IH]; intros w Hv; simpl; [exact Hv|].
  apply IH. apply step_keeps_visible; assumption.
Qed.

(** A page with two reveal elements, a back-to-top button and two tabs. *)
Definition sample_page : page :=
  mkPage [0%nat; 1%nat] [3%nat; 4%nat] [5%nat] (fun _ => Some (s2j "new"))
         (fun _ => Some (s2j "new")) true true true true true (Some 3%nat) true true
         (Some 2%nat) (Some 6%nat) false.

Lemma C8_reveal_one_way_witness :
  w_cls (run sample_page [Scroll 0; TabClick 3; Carousel AutoplayFire; ArrivalTimeout;
                          Intersect 1 false; ThemeToggleClick]
           (run sample_page [DOMContentLoaded 0 0 0 0; Intersect 1 true] (fresh ∅)))
        "is-visible" 1%nat = true.
Proof.
  apply C8_reveal_one_way.
  - simpl; auto.
  - discriminate.
  - reflexivity.
Defined.

(** Only the theme toggle writes to [localStorage], and only its key. *)
Lemma step_storage (pg : page) (w : world) (ev : event) :
  w_storage (step pg w ev) = w_storage w \/
  exists v, w_storage (step pg w ev) = <["veloura-theme" := v]> (w_storage w).
Proof.
  unfold step.
  destruct (w_phase w), ev; try (left; reflexivity).
  - left. apply init_storage.
  - destruct (pg_toggle pg); [|left; reflexivity].
    unfold themeClick. simpl. right. eexists. reflexivity.
  - case_match; left; reflexivity.
  - case_match; left; reflexivity.
  - destruct (pg_days pg); [|left; reflexivity]. destruct (tick _ _ _ _). left; reflexivity.
  - destruct (pg_slides pg); [|left; reflexivity]. case_match; left; reflexivity.
  - destruct (pg_back_to_top pg); left; reflexivity.
  - destruct (pg_arrival pg); left; reflexivity.
  - destruct (pg_toggle pg); [|left; reflexivity].
    unfold themeClick. simpl. right. eexists. reflexivity.
  - case_match; left; reflexivity.
  - case_match; left; reflexivity.
Qed.

(** C9: whatever events the page receives, the stored cart and wishlist
    are the ones it started with. *)
Theorem C9_cart_wishlist_untouched (pg : page) (evs : list event) (w : world) :
  w_storage (run pg evs w) !! "veloura-cart" = w_storage w !! "veloura-cart" /\
  w_storage (run pg evs w) !! "veloura-wishlist" = w_storage w !! "veloura-wishlist".
Proof.
  unfold run. revert w.
  induction evs as [|ev evs IH]; intros w; simpl; [split; reflexivity|].
  destruct (IH (step pg w ev)) as [IHc IHw]. rewrite IHc, IHw.
  destruct (step_storage pg w ev) as [->|[v ->]]; [split; reflexivity|].
  split; apply lookup_insert_ne; discriminate.
Qed.

(** C10: an item whose [qty] is present but falsy ([null], [false], [0]
    or the empty string, the falsy values [JSON.parse] can produce) counts as 1, as an
    item with no [qty] does. *)
Theorem C10_falsy_qty_counts_one (fs : list (jstr * jv)) (v : jv) :
  lookup_last (s2j "qty") fs = Some v ->
  truthy v = false ->
  qty_or_one (JObj fs) = Some (JNum 1) /\
  forall (q : Q) (rest : list jv),
    cart_sum (ANum q) (JObj fs :: rest) = cart_sum (ANum (q + 1)%Q) rest.
Proof.
  intros Hl Ht.
  assert (Hq : qty_or_one (JObj fs) = Some (JNum 1)).
  { unfold qty_or_one. rewrite Hl, Ht. reflexivity. }
  split; [exact Hq|].
  intros q rest. cbn [cart_sum]. rewrite Hq. reflexivity.
Qed.

Lemma C10_falsy_qty_counts_one_witness :
  qty_or_one (JObj [(s2j "qty", JNum 0)]) = Some (JNum 1) /\
  cart_sum (ANum 0) [JObj [(s2j "qty", JNum 0)]; JObj [(s2j "qty", JNum 2)]] =
  cart_sum (ANum (0 + 1)%Q) [JObj [(s2j "qty", JNum 2)]].
Proof.
  destruct (C10_falsy_qty_counts_one [(s2j "qty", JNum 0)] (JNum 0) eq_refl eq_refl)
    as [H1 H2].
  split; [exact H1|]. apply H2.
Defined.

(** * Further properties of the code *)

Import Countdown Format.

Lemma Qfloor_compat (x y : Q) : (x == y)%Q -> Qfloor x = Qfloor y.
Proof.
  intros H. apply Z.le_antisymm; apply Qfloor_resp_le; rewrite H; apply Qle_refl.
Qed.

Lemma inject_Z_nonzero (d : Z) : d <> 0 -> ~ (inject_Z d == 0)%Q.
Proof.
  intros Hd E. unfold Qeq in E. simpl in E. lia.
Qed.

(** [Math.floor(r / d)] is integer division for [d > 0]. *)
Lemma floor_div (r d : Z) : 0 < d -> Qfloor (inject_Z r / inject_Z d) = r / d.
Proof. intros _. symmetry. apply Zdiv_Qdiv. Qed.

(** [Math.floor((r / d) % m)] is [(r div d) mod m] for [r >= 0]. *)
Lemma floor_fmod (r d m : Z) :
  0 <= r -> 0 < d -> 0 < m ->
  Qfloor (js_fmod (inject_Z r / inject_Z d) (inject_Z m)) = (r / d) mod m.
Proof.
  intros Hr Hd Hm. unfold js_fmod, js_trunc.
  assert (Hd' : (0 < inject_Z d)%Q) by (change 0%Q with (inject_Z 0); rewrite <- Zlt_Qlt; lia).
  assert (Hm' : (0 < inject_Z m)%Q) by (change 0%Q with (inject_Z 0); rewrite <- Zlt_Qlt; lia).
  assert (Hr' : (0 <= inject_Z r)%Q) by (change 0%Q with (inject_Z 0); rewrite <- Zle_Qle; lia).
  pose proof (Qdiv_nonneg _ _ (Qdiv_nonneg _ _ Hr' Hd') Hm') as Hn.
  apply Qle_bool_iff in Hn. rewrite Hn.
  pose proof (inject_Z_nonzero d ltac:(lia)) as Nd.
  pose proof (inject_Z_nonzero m ltac:(lia)) as Nm.
  assert (E1 : Qfloor (inject_Z r / inject_Z d / inject_Z m) = r / (d * m)).
  { rewrite (Qfloor_compat _ (inject_Z r / inject_Z (d * m))).
    - apply floor_div. lia.
    - rewrite inject_Z_mult. field. split; assumption. }
  rewrite E1.
  rewrite (Qfloor_compat _ (inject_Z (r + (- (m * (r / (d * m)))) * d) / inject_Z d)).
  - rewrite floor_div by lia. rewrite Z_div_plus_full by lia.
    rewrite <- Z.div_div by lia. rewrite (Z.mod_eq (r / d) m) by lia. ring.
  - rewrite inject_Z_plus, !inject_Z_mult, inject_Z_opp, inject_Z_mult. field. exact Nd.
Qed.

Lemma components_eq (r : Z) :
  0 <= r ->
  components r = (r / (1000 * 60 * 60 * 24), (r / (1000 * 60 * 60)) mod 24,
                  (r / (1000 * 60)) mod 60, (r / 1000) mod 60).
Proof.
  intros Hr. unfold components.
  rewrite (floor_div r (1000 * 60 * 60 * 24)) by lia.
  rewrite <- (floor_fmod r (1000 * 60 * 60) 24) by lia.
  rewrite <- (floor_fmod r (1000 * 60) 60) by lia.
  rewrite <- (floor_fmod r 1000 60) by lia.
  reflexivity.
Qed.

(** X1: on a non-negative remaining time the four countdown components
    are integer divisions and remainders of the milliseconds. *)
Theorem components_exact (r : Z) :
  0 <= r ->
  components r = (r / (1000 * 60 * 60 * 24), (r / (1000 * 60 * 60)) mod 24,
                  (r / (1000 * 60)) mod 60, (r / 1000) mod 60).
Proof. apply components_eq. Qed.

Lemma components_exact_witness :
  components 100000000 = (1, 3, 46, 40).
Proof. rewrite (components_exact 100000000) by lia. reflexivity. Defined.

(** X2: a tick that finds the target reached re-bases it to three days
    from the clock and displays a fresh three-day window. *)
Theorem tick_rebase_fresh_window (target t : Z) :
  target <= t -> tick target t t t = (t + three_days, (3, 0, 0, 0)).
Proof.
  intros H. unfold tick.
  destruct (Z.leb_spec (target - t) 0) as [_|C]; [|lia].
  replace (t + three_days - t) with three_days by lia. reflexivity.
Qed.

Lemma tick_rebase_fresh_window_witness :
  tick 5000 7000 7000 7000 = (7000 + three_days, (3, 0, 0, 0)).
Proof. apply tick_rebase_fresh_window. lia. Defined.

Lemma dec_rev_small (f : nat) (v : Z) : 0 <= v < 10 -> dec_rev (S f) v = [48 + v].
Proof. intros H. simpl. destruct (Z.ltb_spec v 10); [reflexivity|lia]. Qed.

Lemma pad_digits (v : Z) :
  0 <= v < 100 -> pad v = [48 + v / 10; 48 + v mod 10].
Proof.
  intros Hv. unfold pad, padStart, num_to_string.
  destruct (Z.ltb_spec v 0) as [C|_]; [lia|].
  destruct (Z.ltb_spec v 10) as [Hs|Hb].
  - rewrite dec_rev_small by lia. simpl.
    rewrite Z.div_small, Z.mod_small by lia. reflexivity.
  - assert (Hl : 3 <= Z.log2 v).
    { change 3 with (Z.log2 8). apply Z.log2_le_mono. lia. }
    destruct (Z.to_nat (Z.log2 v)) as [|[|f]] eqn:E; [lia|lia|].
    cbn [dec_rev]. destruct (Z.ltb_spec v 10) as [C|_]; [lia|].
    assert (Hd : v / 10 < 10) by (apply Z.div_lt_upper_bound; lia).
    destruct (Z.ltb_spec (v / 10) 10) as [_|C]; [reflexivity|lia].
Qed.

(** X3: [pad] writes every integer in [[0, 100)] as exactly two decimal
    digits, tens first. *)
Theorem pad_two_digits (v : Z) :
  0 <= v < 100 -> pad v = [48 + v / 10; 48 + v mod 10].
Proof. apply pad_digits. Qed.

Lemma pad_two_digits_witness : pad 7 = [48; 55] /\ pad 42 = [52; 50].
Proof.
  split; [apply (pad_two_digits 7)|apply (pad_two_digits 42)]; lia.
Defined.

Definition is_two_digits (s : jstr) : Prop :=
  length s = 2%nat /\ Forall (fun u => 48 <= u <= 57) s.

Lemma pad_is_two_digits (v : Z) : 0 <= v < 100 -> is_two_digits (pad v).
Proof.
  intros Hv. rewrite pad_digits by exact Hv. split; [reflexivity|].
  assert (0 <= v / 10 < 10) by (split; [apply Z.div_pos|apply Z.div_lt_upper_bound]; lia).
  assert (0 <= v mod 10 < 10) by (apply Z.mod_pos_bound; lia).
  repeat constructor; lia.
Qed.

(** X4: when the clock does not move during a tick and the target is at
    most three days ahead (as [initCountdown] and every re-base leave it),
    each of the four fields the tick writes is exactly two decimal digits. *)
Theorem tick_display_two_digits (target t : Z) :
  target <= t + three_days ->
  let '(_, cs) := tick target t t t in
  let '(a, b, c, e) := display cs in
  is_two_digits a /\ is_two_digits b /\ is_two_digits c /\ is_two_digits e.
Proof.
  intros Ht. unfold tick. cbv zeta.
  set (tg := if target - t <=? 0 then t + three_days else target).
  assert (Hr : 0 < tg - t <= three_days)
    by (unfold tg; destruct (Z.leb_spec (target - t) 0); unfold three_days in *; lia).
  rewrite components_eq by lia. unfold display.
  unfold three_days in Hr.
  repeat split; try apply pad_is_two_digits;
    first [ split; [apply Z.div_pos; lia | apply Z.div_lt_upper_bound; lia]
          | pose proof (Z.mod_pos_bound (tg - t) 24); lia
          | idtac ];
    match goal with
    | |- _ <= ?x mod ?m < _ => pose proof (Z.mod_pos_bound x m); lia
    | _ => idtac
    end.
Qed.

Lemma tick_display_two_digits_witness :
  let '(_, cs) := tick 1000 0 0 0 in
  let '(a, b, c, e) := display cs in
  is_two_digits a /\ is_two_digits b /\ is_two_digits c /\ is_two_digits e.
Proof. apply (tick_display_two_digits 1000 0). unfold three_days. lia. Defined.

Import Page Theme Carousel.

(** Case analysis of one event, down to the branches of [step] and [init]. *)
Ltac step_cases :=
  unfold step, init, set_cls, set_index;
  repeat (case_match; simpl in *; try discriminate); simplify_eq; simpl in *.

Lemma run_crashed (pg : page) (evs : list event) (w : world) :
  w_phase w = Crashed -> run pg evs w = w.
Proof.
  intros H. unfold run. induction evs as [|ev evs IH]; [reflexivity|].
  simpl. replace (step pg w ev) with w; [exact IH|].
  unfold step. rewrite H. destruct ev; reflexivity.
Qed.

Lemma step_running (pg : page) (w : world) (ev : event) :
  w_phase w = Running -> w_phase (step pg w ev) = Running.
Proof. intros H. unfold step. rewrite H. step_cases; auto. Qed.

Lemma run_running (pg : page) (evs : list event) (w : world) :
  w_phase w = Running -> w_phase (run pg evs w) = Running.
Proof.
  unfold run. revert w. induction evs as [|ev evs IH]; intros w H; [exact H|].
  apply IH, step_running, H.
Qed.

(** The page has run [initTheme] and not stopped in [syncBadges]. *)
Definition live (p : phase) : Prop := p = Running \/ p = Partial.

(** The label invariant of the theme toggle. *)
Definition label_inv (w : world) : Prop :=
  (w_phase w = Loading -> toggle_text (w_theme w) <> None) /\
  (live (w_phase w) ->
   exists th, root_theme (w_theme w) = Some th /\ toggle_text (w_theme w) = Some (label_for th)).

Lemma step_label_inv (pg : page) (w : world) (ev : event) :
  label_inv w -> label_inv (step pg w ev).
Proof.
  intros HI. pose proof HI as [HL HR]. unfold step. destruct (w_phase w) eqn:Ep.
  - destruct ev; try exact HI.
    assert (Ht : toggle_text (w_theme w) <> None) by (apply HL; reflexivity).
    assert (Hth : exists th,
      root_theme (initTheme (w_storage w) (pg_system_dark pg) (w_theme w)) = Some th /\
      toggle_text (initTheme (w_storage w) (pg_system_dark pg) (w_theme w)) = Some (label_for th)).
    { unfold initTheme. simpl. eexists. split; [reflexivity|].
      destruct (toggle_text (w_theme w)); [reflexivity|congruence]. }
    unfold init. destruct (syncBadges _ _).
    + destruct (pg_days pg);
        [destruct (tick _ _ _ _) as [tg cs]; destruct (write_fields pg cs) as [wr []]|];
        split; simpl; intros H; try discriminate H; exact Hth.
    + split; simpl; intros H; [discriminate H|destruct H as [H|H]; discriminate H].
  - destruct (HR (or_introl eq_refl)) as (th & Hth & Htt).
    destruct ev; unfold themeClick, set_cls, set_index; simpl; repeat case_match; simpl;
      split; intros Hp; try discriminate Hp; try (rewrite Ep in Hp; discriminate Hp);
      eauto; congruence.
  - destruct (HR (or_intror eq_refl)) as (th & Hth & Htt).
    destruct ev; unfold themeClick, set_cls, set_index; simpl; repeat case_match; simpl;
      split; intros Hp; try discriminate Hp; try (rewrite Ep in Hp; discriminate Hp);
      eauto; congruence.
  - destruct ev; exact HI.
Qed.

Lemma run_label_inv (pg : page) (evs : list event) (w : world) :
  label_inv w -> label_inv (run pg evs w).
Proof.
  unfold run. revert w. induction evs as [|ev evs IH]; intros w H; [exact H|].
  apply IH, step_label_inv, H.
Qed.

(** X5: whenever the page runs, the toggle button's text names the other
    theme than the one on the document root: "Light" under "dark",
    "Dark" otherwise. *)
Theorem theme_label_matches (pg : page) (st : gmap string jstr) (evs : list event) :
  w_phase (run pg evs (fresh st)) = Running ->
  exists th, root_theme (w_theme (run pg evs (fresh st))) = Some th /\
             toggle_text (w_theme (run pg evs (fresh st))) = Some (label_for th).
Proof.
  intros Hr. apply (run_label_inv pg evs (fresh st)); [|left; exact Hr].
  split; [intros _; discriminate|intros [H|H]; discriminate H].
Qed.

Lemma theme_label_matches_witness :
  w_phase (run sample_page [DOMContentLoaded 0 0 0 0; ThemeToggleClick] (fresh ∅)) = Running /\
  exists th, root_theme (w_theme (run sample_page [DOMContentLoaded 0 0 0 0; ThemeToggleClick] (fresh ∅)))
               = Some th /\
             toggle_text (w_theme (run sample_page [DOMContentLoaded 0 0 0 0; ThemeToggleClick] (fresh ∅)))
               = Some (label_for th).
Proof.
  assert (H : w_phase (run sample_page [DOMContentLoaded 0 0 0 0; ThemeToggleClick] (fresh ∅)) = Running)
    by reflexivity.
  split; [exact H|]. exact (theme_label_matches sample_page ∅ _ H).
Defined.

(** The stored theme preference and the root attribute agree. *)
Definition theme_synced (w : world) : Prop :=
  w_phase w = Running /\ w_storage w !! "veloura-theme" = root_theme (w_theme w).

Lemma step_theme_synced (pg : page) (w : world) (ev : event) :
  theme_synced w -> theme_synced (step pg w ev).
Proof.
  intros [Hr Hs]. split; [apply step_running, Hr|].
  unfold step. rewrite Hr.
  destruct ev; unfold themeClick, set_cls, set_index; simpl; repeat case_match; simpl;
    try exact Hs; apply lookup_insert_eq.
Qed.

Lemma run_theme_synced (pg : page) (evs : list event) (w : world) :
  theme_synced w -> theme_synced (run pg evs w).
Proof.
  unfold run. revert w. induction evs as [|ev evs IH]; intros w H; [exact H|].
  apply IH, step_theme_synced, H.
Qed.

(** X6: once the theme button has been clicked, the stored
    [veloura-theme] preference equals the document's [data-theme]
    attribute after any further events: the click listener writes both,
    nothing else writes either. *)
Theorem theme_click_persists (pg : page) (evs : list event) (w : world) :
  pg_toggle pg = true -> w_phase w = Running ->
  w_storage (run pg (ThemeToggleClick :: evs) w) !! "veloura-theme" =
  root_theme (w_theme (run pg (ThemeToggleClick :: evs) w)).
Proof.
  intros Ht Hr.
  change (run pg (ThemeToggleClick :: evs) w) with (run pg evs (step pg w ThemeToggleClick)).
  apply run_theme_synced. split; [apply step_running, Hr|].
  unfold step. rewrite Hr, Ht. unfold themeClick. simpl. apply lookup_insert_eq.
Qed.

Lemma theme_click_persists_witness :
  pg_toggle sample_page = true /\
  w_phase (run sample_page [DOMContentLoaded 0 0 0 0] (fresh ∅)) = Running /\
  w_storage (run sample_page [ThemeToggleClick; Scroll 500; TabClick 4]
               (run sample_page [DOMContentLoaded 0 0 0 0] (fresh ∅))) !! "veloura-theme" =
  root_theme (w_theme (run sample_page [ThemeToggleClick; Scroll 500; TabClick 4]
               (run sample_page [DOMContentLoaded 0 0 0 0] (fresh ∅)))).
Proof.
  assert (Hr : w_phase (run sample_page [DOMContentLoaded 0 0 0 0] (fresh ∅)) = Running)
    by reflexivity.
  split; [reflexivity|]. split; [exact Hr|].
  exact (theme_click_persists sample_page [Scroll 500; TabClick 4] _ eq_refl Hr).
Defined.

(** The dots of an in-range index: one per slide, the one at the index
    active. *)
Lemma dots_for_spec (n : nat) (z : Z) :
  length (dots_for n (Some z)) = n /\
  forall k, (k < n)%nat -> nth_error (dots_for n (Some z)) k = Some (Z.of_nat k =? z).
Proof.
  unfold dots_for. split.
  - rewrite length_map. apply length_seq.
  - intros k Hk. rewrite nth_error_map, nth_error_seq.
    destruct (Nat.ltb_spec k n); [reflexivity|lia].
Qed.

(** The testimonial index is in range, and on a running page the dots
    show it. *)
Definition carousel_inv (n : nat) (w : world) : Prop :=
  (exists z, w_index w = Some z /\ 0 <= z < Z.of_nat n) /\
  (w_phase w = Running -> w_dots w = dots_for n (w_index w)).

Lemma step_carousel_inv (pg : page) (n : nat) (w : world) (ev : event) :
  pg_slides pg = Some n -> (1 <= n)%nat ->
  carousel_inv n w -> carousel_inv n (step pg w ev).
Proof.
  intros Hs Hn HI. pose proof HI as [(z & Hz & Hr) Hd]. unfold step.
  assert (Hin : exists z0, w_index w = Some z0 /\ 0 <= z0 < Z.of_nat n) by eauto.
  destruct (w_phase w) eqn:Ep.
  - destruct ev; try exact HI.
    unfold init. destruct (syncBadges _ _).
    + destruct (pg_days pg);
        [destruct (tick _ _ _ _) as [tg cs]; destruct (write_fields pg cs) as [wr []]|];
        rewrite ?Hs; split; simpl; auto; intros H; discriminate H.
    + split; simpl; [exact Hin|intros H; discriminate H].
  - destruct ev; try exact HI.
    + destruct (pg_toggle pg); [|exact HI].
      unfold themeClick. split; simpl; [exact Hin|intros _; apply Hd; reflexivity].
    + case_match; [|exact HI]. split; simpl; [exact Hin|intros _; apply Hd; reflexivity].
    + case_match; [|exact HI]. split; simpl; [exact Hin|intros _; apply Hd; reflexivity].
    + destruct (pg_days pg); [|exact HI].
      destruct (tick _ _ _ _). split; simpl; [exact Hin|intros _; apply Hd; reflexivity].
    + rewrite Hs. case_match; [|exact HI].
      rewrite Hz. destruct (cstep_in_range n z c Hn Hr) as (z' & Hz' & Hr').
      split; simpl; [rewrite Hz'; eauto|]. intros _. reflexivity.
    + destruct (pg_back_to_top pg); [|exact HI].
      split; simpl; [exact Hin|intros _; apply Hd; reflexivity].
    + destruct (pg_arrival pg); [|exact HI].
      split; simpl; [exact Hin|intros _; apply Hd; reflexivity].
  - destruct ev; try exact HI.
    + destruct (pg_toggle pg); [|exact HI].
      split; simpl; [exact Hin|intros Hp; discriminate Hp].
    + case_match; [|exact HI].
      split; simpl; [exact Hin|rewrite Ep; intros Hp; discriminate Hp].
    + case_match; [|exact HI].
      split; simpl; [exact Hin|rewrite Ep; intros Hp; discriminate Hp].
  - destruct ev; exact HI.
Qed.

Lemma run_carousel_inv (pg : page) (n : nat) (evs : list event) (w : world) :
  pg_slides pg = Some n -> (1 <= n)%nat ->
  carousel_inv n w -> carousel_inv n (run pg evs w).
Proof.
  intros Hs Hn. unfold run. revert w.
  induction evs as [|ev evs IH]; intros w H; [exact H|].
  apply IH, step_carousel_inv; assumption.
Qed.

(** X7: on a running page with [n >= 1] testimonials, whatever the clicks
    and timer firings so far, the index lies in [[0, n)] and there is one
    dot per slide, the one at the index being the only active one. *)
Theorem carousel_one_active_dot (pg : page) (st : gmap string jstr) (evs : list event) (n : nat) :
  pg_slides pg = Some n -> (1 <= n)%nat -> w_phase (run pg evs (fresh st)) = Running ->
  exists z, w_index (run pg evs (fresh st)) = Some z /\ 0 <= z < Z.of_nat n /\
    length (w_dots (run pg evs (fresh st))) = n /\
    forall k, (k < n)%nat -> nth_error (w_dots (run pg evs (fresh st))) k = Some (Z.of_nat k =? z).
Proof.
  intros Hs Hn Hr.
  destruct (run_carousel_inv pg n evs (fresh st) Hs Hn) as [(z & Hz & Hzr) Hd].
  - split; [exists 0; split; [reflexivity|lia]|intros H; discriminate H].
  - exists z. rewrite (Hd Hr), Hz. split; [reflexivity|]. split; [exact Hzr|].
    apply dots_for_spec.
Qed.

Lemma carousel_one_active_dot_witness :
  exists z, w_index (run sample_page [DOMContentLoaded 0 0 0 0; Carousel PrevClick] (fresh ∅)) = Some z /\
    0 <= z < 3 /\
    length (w_dots (run sample_page [DOMContentLoaded 0 0 0 0; Carousel PrevClick] (fresh ∅))) = 3%nat /\
    forall k, (k < 3)%nat ->
      nth_error (w_dots (run sample_page [DOMContentLoaded 0 0 0 0; Carousel PrevClick] (fresh ∅))) k =
      Some (Z.of_nat k =? z).
Proof.
  apply (carousel_one_active_dot sample_page ∅ [DOMContentLoaded 0 0 0 0; Carousel PrevClick] 3);
    [reflexivity|lia|reflexivity].
Defined.

(** X8: on [n >= 1] slides, [next] undoes [prev] and [prev] undoes
    [next] from every index in range. *)
Theorem prev_next_inverse (n : nat) (z : Z) :
  (1 <= n)%nat -> 0 <= z < Z.of_nat n ->
  prev n (next n (Some z)) = Some z /\ next n (prev n (Some z)) = Some z.
Proof.
  intros Hn Hz. unfold next, prev. cbn [option_map].
  destruct (goToSlide_mod n (z + 1) Hn ltac:(lia)) as [E1 R1].
  destruct (goToSlide_mod n (z - 1) Hn ltac:(lia)) as [E2 R2].
  rewrite E1, E2. cbn [option_map].
  destruct (goToSlide_mod n ((z + 1) mod Z.of_nat n - 1) Hn ltac:(lia)) as [E3 _].
  destruct (goToSlide_mod n ((z - 1) mod Z.of_nat n + 1) Hn ltac:(lia)) as [E4 _].
  rewrite E3, E4. split; f_equal.
  - rewrite Zminus_mod_idemp_l. replace (z + 1 - 1) with z by lia.
    apply Z.mod_small. lia.
  - rewrite Zplus_mod_idemp_l. replace (z - 1 + 1) with z by lia.
    apply Z.mod_small. lia.
Qed.

Lemma prev_next_inverse_witness :
  prev 3 (next 3 (Some 2)) = Some 2 /\ next 3 (prev 3 (Some 0)) = Some 0.
Proof.
  pose proof (prev_next_inverse 3 2 ltac:(lia) ltac:(lia)) as [H1 _].
  pose proof (prev_next_inverse 3 0 ltac:(lia) ltac:(lia)) as [_ H2].
  split; [exact H1|exact H2].
Defined.

(** X9: on a track with no slides, the first move sets the index to
    NaN ([(k + 0) % 0]), and it stays NaN whatever follows. *)
Theorem crun_no_slides_nan (e : cev) (evs : list cev) : crun 0 (e :: evs) = None.
Proof.
  unfold crun. simpl.
  assert (H0 : cstep 0 (Some 0) e = None) by (destruct e; reflexivity).
  rewrite H0. clear e H0. induction evs as [|e evs IH]; [reflexivity|].
  simpl. replace (cstep 0 None e) with (@None Z) by (destruct e; reflexivity). exact IH.
Qed.

Import Tabs.

(** X10: the tab handlers keep no history: after a click on [t1] then on
    [t2], every element's [is-active] flag is what a click on [t2] alone
    gives. *)
Theorem tabClick_last_wins (tabs panels : list nat) (dt dp : nat -> option jstr)
    (t1 t2 : nat) (a : nat -> bool) (e : nat) :
  tabClick tabs panels dt dp t2 (tabClick tabs panels dt dp t1 a) e =
  tabClick tabs panels dt dp t2 a e.
Proof.
  unfold tabClick. rewrite !fold_set_flag.
  destruct (existsb (Nat.eqb e) panels), (existsb (Nat.eqb e) tabs); reflexivity.
Qed.

(** What one event does to the class [c] of element [e]: nothing, or a
    change of [is-visible] on a reveal element or the back-to-top button,
    of [is-active] on a tab or panel, or the removal of [is-loading] from
    the arrival track. *)
Lemma step_cls (pg : page) (w : world) (ev : event) (c : string) (e : nat) :
  w_cls (step pg w ev) c e = w_cls w c e \/
  (c = "is-visible" /\ (In e (pg_reveal pg) \/ pg_back_to_top pg = Some e)) \/
  (c = "is-active" /\ (In e (pg_tabs pg) \/ In e (pg_panels pg))) \/
  (c = "is-loading" /\ pg_arrival pg = Some e /\ w_cls (step pg w ev) c e = false).
Proof.
  remember (w_cls (step pg w ev) c e) as b eqn:Eb. unfold step in Eb.
  destruct (w_phase w), ev; try (left; try subst c; exact Eb).
  - left. rewrite init_cls in Eb. exact Eb.
  - destruct (pg_toggle pg); [|left; try subst c; exact Eb]. unfold themeClick in Eb. left; try subst c; exact Eb.
  - destruct (existsb (Nat.eqb e0) (pg_reveal pg) && isIntersecting) eqn:Hi; [|left; try subst c; exact Eb].
    simpl in Eb. unfold set_class, set_flag in Eb. case_decide as Hc; [|left; try subst c; exact Eb].
    destruct (Nat.eqb_spec e e0) as [->|_]; [|left; try subst c; exact Eb].
    right; left. split; [exact Hc|left]. apply andb_prop in Hi as [Hi _].
    apply existsb_In, Hi.
  - destruct (existsb (Nat.eqb t) (pg_tabs pg)); [|left; try subst c; exact Eb].
    simpl in Eb. case_decide as Hc; [|left; try subst c; exact Eb].
    unfold tabClick in Eb. rewrite !fold_set_flag in Eb.
    destruct (existsb (Nat.eqb e) (pg_panels pg)) eqn:Hp.
    + right; right; left. split; [exact Hc|right]. apply existsb_In, Hp.
    + destruct (existsb (Nat.eqb e) (pg_tabs pg)) eqn:Ht.
      * right; right; left. split; [exact Hc|left]. apply existsb_In, Ht.
      * left. subst c. exact Eb.
  - destruct (pg_days pg); [|left; try subst c; exact Eb]. destruct (tick _ _ _ _). left; try subst c; exact Eb.
  - destruct (pg_slides pg); [|left; try subst c; exact Eb]. case_match; left; try subst c; exact Eb.
  - destruct (pg_back_to_top pg) as [bt|] eqn:Hb; [|left; try subst c; exact Eb].
    simpl in Eb. unfold set_class, set_flag in Eb. case_decide as Hc; [|left; try subst c; exact Eb].
    destruct (Nat.eqb_spec e bt) as [->|_]; [|left; try subst c; exact Eb].
    right; left. split; [exact Hc|right; reflexivity].
  - destruct (pg_arrival pg) as [ar|] eqn:Ha; [|left; try subst c; exact Eb].
    simpl in Eb. unfold set_class, set_flag in Eb. case_decide as Hc; [|left; try subst c; exact Eb].
    destruct (Nat.eqb_spec e ar) as [->|_]; [|left; try subst c; exact Eb].
    right; right; right. split; [exact Hc|]. split; [reflexivity|exact Eb].
  - destruct (pg_toggle pg); [|left; try subst c; exact Eb]. unfold themeClick in Eb. left; try subst c; exact Eb.
  - destruct (existsb (Nat.eqb e0) (pg_reveal pg) && isIntersecting) eqn:Hi; [|left; try subst c; exact Eb].
    simpl in Eb. unfold set_class, set_flag in Eb. case_decide as Hc; [|left; try subst c; exact Eb].
    destruct (Nat.eqb_spec e e0) as [->|_]; [|left; try subst c; exact Eb].
    right; left. split; [exact Hc|left]. apply andb_prop in Hi as [Hi _].
    apply existsb_In, Hi.
  - destruct (existsb (Nat.eqb t) (pg_tabs pg)); [|left; try subst c; exact Eb].
    simpl in Eb. case_decide as Hc; [|left; try subst c; exact Eb].
    unfold tabClick in Eb. rewrite !fold_set_flag in Eb.
    destruct (existsb (Nat.eqb e) (pg_panels pg)) eqn:Hp.
    + right; right; left. split; [exact Hc|right]. apply existsb_In, Hp.
    + destruct (existsb (Nat.eqb e) (pg_tabs pg)) eqn:Ht.
      * right; right; left. split; [exact Hc|left]. apply existsb_In, Ht.
      * left. subst c. exact Eb.
Qed.

(** X11: on the elements of the page's markup the page changes no class
    other than [is-visible], [is-active] and [is-loading].  The carousel
    dots that [initTestimonials] creates (class [dot], with [is-active]
    toggled by [update]) are not markup elements: their state is
    [w_dots], see X7. *)
Theorem run_other_classes (pg : page) (evs : list event) (w : world) (c : string) (e : nat) :
  c <> "is-visible" -> c <> "is-active" -> c <> "is-loading" ->
  w_cls (run pg evs w) c e = w_cls w c e.
Proof.
  intros H1 H2 H3. unfold run. revert w.
  induction evs as [|ev evs IH]; intros w; [reflexivity|]. simpl. rewrite IH.
  destruct (step_cls pg w ev c e) as [E|[[E _]|[[E _]|[E _]]]]; [exact E|congruence..].
Qed.

Lemma run_other_classes_witness :
  "is-hidden" <> "is-visible" /\ "is-hidden" <> "is-active" /\ "is-hidden" <> "is-loading" /\
  w_cls (run sample_page [DOMContentLoaded 0 0 0 0; TabClick 3; Scroll 900; ArrivalTimeout] (fresh ∅))
        "is-hidden" 3%nat = w_cls (fresh ∅) "is-hidden" 3%nat.
Proof.
  split; [discriminate|]. split; [discriminate|]. split; [discriminate|].
  apply run_other_classes; discriminate.
Defined.

(** X12: [is-visible] changes only on [.reveal] elements and on the
    [#back-to-top] button. *)
Theorem run_visible_local (pg : page) (evs : list event) (w : world) (e : nat) :
  ~ In e (pg_reveal pg) -> pg_back_to_top pg <> Some e ->
  w_cls (run pg evs w) "is-visible" e = w_cls w "is-visible" e.
Proof.
  intros H1 H2. unfold run. revert w.
  induction evs as [|ev evs IH]; intros w; [reflexivity|]. simpl. rewrite IH.
  destruct (step_cls pg w ev "is-visible" e) as [E|[[_ [H|H]]|[[E _]|[E _]]]];
    [exact E|contradiction|contradiction|discriminate..].
Qed.

Lemma run_visible_local_witness :
  ~ In 5%nat (pg_reveal sample_page) /\ pg_back_to_top sample_page <> Some 5%nat /\
  w_cls (run sample_page [DOMContentLoaded 0 0 0 0; Intersect 5 true; Scroll 900] (fresh ∅))
        "is-visible" 5%nat = false.
Proof.
  split; [simpl; lia|]. split; [discriminate|].
  apply (run_visible_local sample_page _ (fresh ∅) 5); [simpl; lia|discriminate].
Defined.

(** X13: among the elements of the page's markup, [is-active] changes
    only on [.tab] and [.tab-panel] elements.  The generated carousel
    dots, whose [is-active] [update] toggles, are not markup elements
    (see X7). *)
Theorem run_active_local (pg : page) (evs : list event) (w : world) (e : nat) :
  ~ In e (pg_tabs pg) -> ~ In e (pg_panels pg) ->
  w_cls (run pg evs w) "is-active" e = w_cls w "is-active" e.
Proof.
  intros H1 H2. unfold run. revert w.
  induction evs as [|ev evs IH]; intros w; [reflexivity|]. simpl. rewrite IH.
  destruct (step_cls pg w ev "is-active" e) as [E|[[E _]|[[_ [H|H]]|[E _]]]];
    [exact E|discriminate|contradiction|contradiction|discriminate].
Qed.

Lemma run_active_local_witness :
  ~ In 0%nat (pg_tabs sample_page) /\ ~ In 0%nat (pg_panels sample_page) /\
  w_cls (run sample_page [DOMContentLoaded 0 0 0 0; TabClick 3; TabClick 4] (fresh ∅))
        "is-active" 0%nat = false.
Proof.
  split; [simpl; lia|]. split; [simpl; lia|].
  apply (run_active_local sample_page _ (fresh ∅) 0); simpl; lia.
Defined.

Lemma run_loading_cleared (pg : page) (evs : list event) (w : world) (e : nat) :
  w_cls w "is-loading" e = false -> w_cls (run pg evs w) "is-loading" e = false.
Proof.
  unfold run. revert w.
  induction evs as [|ev evs IH]; intros w H; [exact H|]. simpl. apply IH.
  destruct (step_cls pg w ev "is-loading" e) as [E|[[E _]|[[E _]|[_ [_ E]]]]];
    [rewrite E; exact H|discriminate..|exact E].
Qed.

(** X14: the page never adds [is-loading]: an element without it never
    gets it. *)
Theorem run_never_adds_loading (pg : page) (evs : list event) (w : world) (e : nat) :
  w_cls w "is-loading" e = false -> w_cls (run pg evs w) "is-loading" e = false.
Proof. apply run_loading_cleared. Qed.

Lemma run_never_adds_loading_witness :
  w_cls (fresh ∅) "is-loading" 6%nat = false /\
  w_cls (run sample_page [DOMContentLoaded 0 0 0 0; Scroll 900; ArrivalTimeout; TabClick 3] (fresh ∅))
        "is-loading" 6%nat = false.
Proof.
  split; [reflexivity|]. apply run_never_adds_loading. reflexivity.
Defined.

(** X15: once the skeleton timeout has fired on a running page, the
    arrival track is without [is-loading] for good. *)
Theorem arrival_timeout_clears (pg : page) (evs : list event) (w : world) (a : nat) :
  pg_arrival pg = Some a -> w_phase w = Running ->
  w_cls (run pg (ArrivalTimeout :: evs) w) "is-loading" a = false.
Proof.
  intros Ha Hr.
  change (run pg (ArrivalTimeout :: evs) w) with (run pg evs (step pg w ArrivalTimeout)).
  apply run_loading_cleared. unfold step. rewrite Hr, Ha. simpl.
  unfold set_class, set_flag. case_decide as Hc; [|congruence].
  rewrite Nat.eqb_refl. reflexivity.
Qed.

Lemma arrival_timeout_clears_witness :
  pg_arrival sample_page = Some 6%nat /\
  w_phase (run sample_page [DOMContentLoaded 0 0 0 0] (fresh ∅)) = Running /\
  w_cls (run sample_page [ArrivalTimeout; Scroll 900; TabClick 4]
           (run sample_page [DOMContentLoaded 0 0 0 0] (fresh ∅))) "is-loading" 6%nat = false.
Proof.
  assert (Hr : w_phase (run sample_page [DOMContentLoaded 0 0 0 0] (fresh ∅)) = Running)
    by reflexivity.
  split; [reflexivity|]. split; [exact Hr|].
  exact (arrival_timeout_clears sample_page [Scroll 900; TabClick 4] _ 6 eq_refl Hr).
Defined.

Import Json Badges.

(** Once the reducer's accumulator is a string, it stays one. *)
Lemma cart_sum_str (ps : list jv) (items : list jv) (a : acc) :
  cart_sum (AStr ps) items = Some a -> exists ps', a = AStr ps'.
Proof.
  revert ps. induction items as [|it items IH]; intros ps H; cbn [cart_sum] in H.
  - injection H as <-. eauto.
  - destruct (qty_or_one it) as [x|]; [|discriminate H].
    cbn [js_add] in H. destruct (prim_ok x); [|discriminate H].
    eapply IH. exact H.
Qed.

(** X16: a cart item whose [qty] is a non-empty string turns the cart
    badge into string concatenation: if [reduce] does not throw, its
    result is a string, never a number. *)
Theorem string_qty_concatenates (items : list jv) (fs : list (jstr * jv)) (s : jstr) (a : acc) :
  In (JObj fs) items -> lookup_last (s2j "qty") fs = Some (JStr s) -> s <> [] ->
  cartCount (JArr items) = Some a -> exists ps, a = AStr ps.
Proof.
  intros Hin Hq Hs. unfold cartCount. generalize (ANum 0) as a0.
  induction items as [|it items IH]; intros a0 H; [destruct Hin|].
  cbn [cart_sum] in H. destruct Hin as [->|Hin].
  - cbn [qty_or_one] in H. rewrite Hq in H.
    destruct s as [|u s']; [congruence|]. cbn [truthy] in H.
    destruct a0 as [q|ps]; cbn [js_add prim_ok] in H; eapply cart_sum_str; exact H.
  - destruct (qty_or_one it) as [x|]; [|discriminate H].
    destruct (js_add a0 x) as [a'|]; [|discriminate H].
    exact (IH Hin a' H).
Qed.

Lemma string_qty_concatenates_witness :
  cartCount (JArr [JObj [(s2j "qty", JStr (s2j "2"))]; JObj []]) =
    Some (AStr [JNum 0; JStr (s2j "2"); JNum 1]) /\
  exists ps, AStr [JNum 0; JStr (s2j "2"); JNum 1] = AStr ps.
Proof.
  assert (H : cartCount (JArr [JObj [(s2j "qty", JStr (s2j "2"))]; JObj []]) =
                Some (AStr [JNum 0; JStr (s2j "2"); JNum 1])) by reflexivity.
  split; [exact H|].
  refine (string_qty_concatenates _ [(s2j "qty", JStr (s2j "2"))] (s2j "2") _ _ _ _ H).
  - left. reflexivity.
  - reflexivity.
  - discriminate.
Defined.

(** X17: a stored wishlist that parses to [null] makes [syncBadges]
    throw, whatever the cart: [null.length] is a TypeError. *)
Theorem null_wishlist_throws (storage : gmap string jstr) (b : badges) (s : jstr) :
  storage !! "veloura-wishlist" = Some s -> parse s = Some JNull ->
  syncBadges storage b = None.
Proof.
  intros Hs Hp. unfold syncBadges. rewrite (loadStorage_parsed _ _ _ _ _ Hs Hp).
  destruct (cartCount _); reflexivity.
Qed.

Lemma null_wishlist_throws_witness :
  (<["veloura-wishlist" := s2j "null"]> ∅ : gmap string jstr) !! "veloura-wishlist" =
    Some (s2j "null") /\
  parse (s2j "null") = Some JNull /\
  syncBadges (<["veloura-wishlist" := s2j "null"]> ∅) both_badges = None.
Proof.
  split; [reflexivity|]. split; [reflexivity|].
  apply (null_wishlist_throws _ _ (s2j "null")); reflexivity.
Defined.

(** X18: a stored wishlist that parses to a JSON string is not rejected:
    the wishlist badge shows the string's length in UTF-16 code units. *)
Theorem string_wishlist_length (storage : gmap string jstr) (b : badges) (s u : jstr) (cc : acc) :
  storage !! "veloura-wishlist" = Some s -> parse s = Some (JStr u) ->
  cartCount (loadStorage storage "veloura-cart" (JArr [])) = Some cc ->
  syncBadges storage b =
  Some (mkBadges (option_map (fun _ => CartText cc) (cart_badge b))
                 (option_map (fun _ => WishText (Some (JNum (inject_Z (Z.of_nat (length u))))))
                             (wishlist_badge b))).
Proof.
  intros Hs Hp Hc. unfold syncBadges. rewrite Hc, (loadStorage_parsed _ _ _ _ _ Hs Hp).
  reflexivity.
Qed.

Lemma string_wishlist_length_witness :
  syncBadges (<["veloura-wishlist" := jtext "'abc'"]> ∅) both_badges =
  Some (mkBadges (option_map (fun _ => CartText (ANum 0)) (cart_badge both_badges))
                 (option_map (fun _ => WishText (Some (JNum (inject_Z (Z.of_nat (length [97; 98; 99]))))))
                             (wishlist_badge both_badges))).
Proof.
  apply (string_wishlist_length _ _ (jtext "'abc'") [97; 98; 99]); reflexivity.
Defined.

Import Page Countdown.

(** Every tick of the event sequence, the first one of [initCountdown]
    included, reads one clock value. *)
Definition frozen (ev : event) : Prop :=
  match ev with
  | DOMContentLoaded _ t1 t2 t3 => t1 = t2 /\ t2 = t3
  | CountdownInterval t1 t2 t3 => t1 = t2 /\ t2 = t3
  | _ => True
  end.

(** Once the page runs with a countdown, the three other fields exist
    and the last tick wrote four non-negative numbers. *)
Definition countdown_inv (pg : page) (w : world) : Prop :=
  w_phase w = Running -> pg_days pg = true ->
  pg_hours pg = true /\ pg_minutes pg = true /\ pg_seconds pg = true /\
  exists d h m s, w_shown w = [d; h; m; s] /\ 0 <= d /\ 0 <= h /\ 0 <= m /\ 0 <= s.

Lemma tick_frozen_shown (target t : Z) :
  exists d h m s, snd (tick target t t t) = (d, h, m, s) /\
                  0 <= d /\ 0 <= h /\ 0 <= m /\ 0 <= s.
Proof.
  pose proof (tick_frozen_clock target t) as H.
  destruct (tick target t t t) as [tg [[[d h] m] s]]. simpl. exists d, h, m, s.
  split; [reflexivity|tauto].
Qed.

Lemma write_fields_no_throw (pg : page) (d h m s : Z) (wr : list Z) :
  write_fields pg (d, h, m, s) = (wr, false) ->
  pg_hours pg = true /\ pg_minutes pg = true /\ pg_seconds pg = true /\ wr = [d; h; m; s].
Proof.
  unfold write_fields.
  destruct (pg_hours pg), (pg_minutes pg), (pg_seconds pg); intros E; inversion E; auto.
Qed.

Lemma step_countdown_inv (pg : page) (w : world) (ev : event) :
  frozen ev -> countdown_inv pg w -> countdown_inv pg (step pg w ev).
Proof.
  intros Hf HI. unfold step.
  destruct (w_phase w) eqn:Ep.
  - destruct ev; try exact HI.
    unfold init. destruct (syncBadges _ _).
    + destruct (pg_days pg) eqn:Hd.
      * destruct Hf as [-> ->].
        destruct (tick_frozen_shown (now + three_days) t3) as (d & h & m & s & E & R).
        destruct (tick _ _ _ _) as [tg cs]. simpl in E. subst cs.
        destruct (write_fields pg (d, h, m, s)) as [wr []] eqn:Hw.
        -- simpl. intros Hp. discriminate Hp.
        -- apply write_fields_no_throw in Hw as (Hh & Hm & Hs & ->).
           simpl. intros _ _. split; [exact Hh|]. split; [exact Hm|]. split; [exact Hs|].
           exists d, h, m, s. split; [reflexivity|exact R].
      * simpl. intros _ Hp. rewrite Hd in Hp. discriminate Hp.
    + intros H. discriminate H.
  - pose proof (HI Ep) as HR.
    destruct ev; try exact HI.
    + destruct (pg_toggle pg); [|exact HI]. unfold themeClick. intros _. exact HR.
    + case_match; [|exact HI]. intros _. exact HR.
    + case_match; [|exact HI]. intros _. exact HR.
    + destruct (pg_days pg) eqn:Hd; [|exact HI].
      destruct (HR eq_refl) as (Hh & Hm & Hs & _).
      destruct Hf as [-> ->].
      destruct (tick_frozen_shown (w_target w) t3) as (d & h & m & s & E & R).
      destruct (tick _ _ _ _) as [tg cs]. simpl in E. subst cs.
      intros _ _. simpl. rewrite Hh, Hm, Hs. simpl.
      split; [reflexivity|]. split; [reflexivity|]. split; [reflexivity|].
      exists d, h, m, s. split; [reflexivity|exact R].
    + destruct (pg_slides pg); [|exact HI]. case_match; [|exact HI]. intros _. exact HR.
    + destruct (pg_back_to_top pg); [intros _; exact HR|exact HI].
    + destruct (pg_arrival pg); [intros _; exact HR|exact HI].
  - destruct ev; try exact HI.
    + destruct (pg_toggle pg); [|exact HI]. simpl. intros Hp. discriminate Hp.
    + case_match; [|exact HI]. intros Hp. simpl in Hp. rewrite Ep in Hp. discriminate Hp.
    + case_match; [|exact HI]. intros Hp. simpl in Hp. rewrite Ep in Hp. discriminate Hp.
  - destruct ev; exact HI.
Qed.

(** X19: when every tick reads the clock once, the first tick of
    [initCountdown] included, a running page with a countdown has all
    four fields and shows four non-negative numbers after any run. *)
Theorem countdown_never_negative (pg : page) (st : gmap string jstr) (evs : list event) :
  Forall frozen evs -> pg_days pg = true -> w_phase (run pg evs (fresh st)) = Running ->
  pg_hours pg = true /\ pg_minutes pg = true /\ pg_seconds pg = true /\
  exists d h m s, w_shown (run pg evs (fresh st)) = [d; h; m; s] /\
                  0 <= d /\ 0 <= h /\ 0 <= m /\ 0 <= s.
Proof.
  intros Hf Hd Hr. revert Hr Hd. unfold run.
  assert (H0 : countdown_inv pg (fresh st)) by (intros H; discriminate H).
  revert H0. generalize (fresh st) as w.
  induction Hf as [|ev evs Hev Hf IH]; intros w H0; [exact H0|].
  apply IH, step_countdown_inv; assumption.
Qed.

Lemma countdown_never_negative_witness :
  pg_hours sample_page = true /\ pg_minutes sample_page = true /\ pg_seconds sample_page = true /\
  exists d h m s,
    w_shown (run sample_page [DOMContentLoaded 0 7 7 7; CountdownInterval 5000 5000 5000;
                              Scroll 10; CountdownInterval 300000000 300000000 300000000]
               (fresh ∅)) = [d; h; m; s] /\
    0 <= d /\ 0 <= h /\ 0 <= m /\ 0 <= s.
Proof.
  apply countdown_never_negative.
  - repeat constructor.
  - reflexivity.
  - reflexivity.
Defined.
